(** * ComboBox cell editor (src/cellEditors/ComboBox.js)

    A shallow embedding of the combo-box cell editor of fin-hypergrid: a text
    box with a drop-down whose sections ("modes") are toggled from a control
    area.  The editor object ([this]) is a record, every function of the file
    is a state transformer on it that may end in a JavaScript exception, and
    the DOM is cut down to the elements the file touches. *)

From Stdlib Require Import ZArith String Ascii List DecimalString Decimal DecimalFacts Lia.
From stdpp Require Import base strings gmap list.

Local Open Scope string_scope.
Local Open Scope list_scope.

(** ** JavaScript primitives used by the file *)

Module JS.

(** Exceptions the file can raise. *)
Inductive Exn :=
| TypeError (what : string)
| IndexSizeError
| SyntaxError.

(** [ToInt32] on an integer-valued number: wrap into [-2^31, 2^31). *)
Definition toInt32 (z : Z) : Z :=
  ((z + 2147483648) mod 4294967296 - 2147483648)%Z.

(** What a property of the mode objects can hold: an integer-valued number,
    or an object (a function or a plain object), such as the members every
    object inherits from [Object.prototype]. *)
Inductive Value :=
| Num (z : Z)
| Obj (what : string).

(** [ToInt32] of a value read from an object; [None] is [undefined].
    [undefined], functions and plain objects convert to [NaN], hence to 0. *)
Definition int32_of (x : option Value) : Z :=
  match x with
  | Some (Num z) => toInt32 z
  | Some (Obj _) => 0%Z
  | None => 0%Z
  end.

(** [x ^ 1] *)
Definition xor1 (x : option Value) : Z :=
  Z.lxor (int32_of x) 1.

(** Truthiness of a value read from an object: [undefined] and [0] are
    falsy, every object is truthy. *)
Definition truthy (x : option Value) : bool :=
  match x with
  | Some (Num z) => negb (z =? 0)%Z
  | Some (Obj _) => true
  | None => false
  end.

(** The property names a plain object inherits from [Object.prototype]. *)
Definition prototype_names : list string :=
  ["constructor"; "hasOwnProperty"; "isPrototypeOf"; "propertyIsEnumerable";
   "toLocaleString"; "toString"; "valueOf";
   "__defineGetter__"; "__defineSetter__"; "__lookupGetter__"; "__lookupSetter__";
   "__proto__"].

(** The member of [Object.prototype] of that name, if there is one. *)
Definition inherited (k : string) : option Value :=
  if existsb (String.eqb k) prototype_names then Some (Obj k) else None.

(** [o[k]] on a plain object with own properties [o]: the own property, or
    else the inherited one, or else [undefined]. *)
Definition get (o : gmap string Value) (k : string) : option Value :=
  match o !! k with
  | Some v => Some v
  | None => inherited k
  end.

(** [k in o]: own and inherited properties alike. *)
Definition has (o : gmap string Value) (k : string) : bool :=
  match get o k with
  | Some _ => true
  | None => false
  end.

(** [o[k] = v] on a plain object with own properties [o], for [v] a number
    or a member of [Object.prototype].  The inherited ['__proto__'] is an
    accessor: assigning through it creates no own property (a number is
    ignored, and the object read under that name is the prototype
    already). *)
Definition set (o : gmap string Value) (k : string) (v : Value) : gmap string Value :=
  if String.eqb k "__proto__"
  then match o !! k with
       | Some _ => <[k := v]> o
       | None => o
       end
  else <[k := v]> o.

(** Truthiness of an optional string property: [undefined] and [''] are falsy. *)
Definition truthy_str (x : option string) : bool :=
  match x with
  | Some s => negb (String.eqb s "")
  | None => false
  end.

(** [a || b] on an optional string with a string fallback. *)
Definition or_else (x : option string) (d : string) : string :=
  match x with
  | Some s => if String.eqb s "" then d else s
  | None => d
  end.

(** [s.indexOf(p) === 0] *)
Definition starts_with (p s : string) : bool := String.prefix p s.

(** [s.substr(n)] *)
Definition substr (n : nat) (s : string) : string :=
  String.substring n (String.length s - n) s.

(** Number-to-string conversion of a non-negative integer. *)
Definition of_nat (n : nat) : string :=
  NilEmpty.string_of_uint (Nat.to_uint n).

(** [\d] *)
Definition is_digit (c : ascii) : bool :=
  Nat.leb 48 (nat_of_ascii c) && Nat.leb (nat_of_ascii c) 57.

(** Longest run of digits at the head of a list, and the rest. *)
Fixpoint span_digits (l : list ascii) : list ascii * list ascii :=
  match l with
  | c :: r =>
      if is_digit c
      then let '(ds, rest) := span_digits r in (c :: ds, rest)
      else ([], l)
  | [] => ([], [])
  end.

(** [label.replace(/ \(\d+\)$/, '')]: the pattern is anchored at the end of
    the string, so it is matched on the reversed characters: a closing
    parenthesis, one or more digits, an opening parenthesis, a space. *)
Definition strip_sum (label : string) : string :=
  match rev (list_ascii_of_string label) with
  | ")"%char :: r =>
      match span_digits r with
      | (_ :: _, "("%char :: " "%char :: base) =>
          string_of_list_ascii (rev base)
      | _ => label
      end
  | _ => label
  end.

(** [Array.prototype.find] *)
Definition find {A} (p : A -> bool) (l : list A) : option A := List.find p l.

End JS.

(** ** The DOM fragment behind the editor's template

    [<div class="hypergrid-input"> <input> <span/> <div> <div/> <select/> </div> </div>]:
    [input] is the text box, the first [span] the dropper, the inner [div]
    ([options]) holds the control area ([controls]) and the list ([dropdown]). *)

(** A child of the control area. *)
Record Element := mkElement {
  tagName : string;
  classList : list string;
  title : string;
  textContent : string
}.

(** An [<option>]; [o_display] is [style.display] (['']: shown). *)
Record OptionEl := mkOption {
  o_value : string;
  o_display : string
}.

Record Optgroup := mkOptgroup {
  og_label : string;
  og_className : option string;
  og_backgroundColor : string;
  og_display : string;
  og_options : list OptionEl
}.

(** A direct child of the [<select>], in document order. *)
Inductive Child :=
| Opt (o : OptionEl)
| Grp (g : Optgroup).

Record Dropdown := mkDropdown {
  size : nat;
  d_value : string;                  (* this.dropdown.value *)
  children : list Child;
  style_selectedIndex : option Z;    (* this.dropdown.style.selectedIndex *)
  style_scrollTop : option Z         (* this.dropdown.style.scrollTop *)
}.

(** [this.options.style]; the [<select>] sets no visibility of its own, so
    the computed visibility the code reads on [this.dropdown] is the one
    written on its parent [this.options]. *)
Record OptionsStyle := mkOptionsStyle {
  visibility : string;
  height : string
}.

Record Input := mkInput {
  value : string;
  in_selectionStart : nat;
  in_selectionEnd : nat
}.

(** The functions the file registers as listeners. *)
Inductive Fn := ToggleDropDown | StopPropagation | InsertText | OnModeIconClick | SlideUp.

Inductive Node := DropperN | DropdownN | ControlsN | InputN.

(** One [addEventListener] registration.  Every [f.bind(this)] and every
    function expression is a new function object, told apart by [l_id]. *)
Record Listener := mkListener {
  l_node : Node;
  l_type : string;
  l_fn : Fn;
  l_id : nat
}.

(** ** Collaborators outside the file *)

(** The one function the file hands to the transition lock:
    [function(el) { el.style.visibility = 'hidden'; }]. *)
Inductive Callback :=
| HideOptions.

(** Modelled from the spec: [../lib/queueless] is missing from the sources.
    [onTransitionEnd(el, name, context)] returns the transition lock
    [this.transit]: called without argument it answers whether a transition
    is in flight; called with an argument it takes the lock and keeps the
    argument (a function, or [null]) for the transition-completion signal,
    which runs the function and releases the lock. *)
Record Transit := mkTransit {
  inProgress : bool;
  atEnd : option Callback
}.

(** [setTimeout(function() { style.cursor = null; }, 333)] *)
Record Timer := mkTimer {
  delay : nat
}.

Record KeyEvent := mkKeyEvent {
  keyCode : Z
}.

(** The grid the editor belongs to. *)
Record Grid := mkGrid {
  isFilterRow : Z -> bool;
  resolveProperty : string -> option string
}.

(** Effects on collaborators, in the order the code performs them:
    methods of the superclass prototype ([./Simple]), inherited methods and
    the text box's [focus]. *)
Inductive Call :=
| SuperShowEditor
| SuperHideEditor
| SuperKeyup (e : KeyEvent)
| SaveEditorValue
| MoveEditor
| InputFocus.

(** An entry of [this.modes].  [appendOptions] is supplied by the subclass:
    it is given the values of the options already in the container (the
    optgroup, or the list itself for a mode without selector) and answers
    the values of the options it appends and the count it returns. *)
Record Mode := mkMode {
  name : string;
  label : option string;
  selector : option string;
  symbol : string;
  backgroundColor : string;
  appendOptions : list string -> list string * nat
}.

(** ** The editor object *)

(** The answer of [querySelector] on the control area: the position of the
    first matching child, [null], or a [SyntaxError] for a string that is
    no selector. *)
Inductive Found :=
| Match (i : nat)
| NoMatch
| BadSelector.

Record Editor := mkEditor {
  (* configuration and environment *)
  modes : list Mode;
  menuModesSource : gmap string Z;
  grid : Grid;
  editorPointY : Z;                          (* this.getEditorPoint().y *)
  css : string -> option string -> bool;     (* does a selector match an optgroup of this class? *)
  engine : string -> list Element -> Found;  (* what a selector other than one class finds in the control area *)
  (* own properties *)
  menuModes : gmap string JS.Value;
  selectionStart : option nat;
  selectionEnd : option nat;
  slideUpBound : option nat;
  transit : Transit;
  (* DOM *)
  controls : list Element;
  dropdown : Dropdown;
  options : OptionsStyle;
  input : Input;
  cursor : option string;                    (* this.el.style.cursor *)
  listeners : list Listener;
  (* event loop *)
  nextFn : nat;
  timers : list Timer;
  calls : list Call
}.

Definition with_menuModes (f : gmap string JS.Value -> gmap string JS.Value) (s : Editor) : Editor :=
  mkEditor (modes s) (menuModesSource s) (grid s) (editorPointY s) (css s) (engine s)
    (f (menuModes s)) (selectionStart s) (selectionEnd s) (slideUpBound s) (transit s)
    (controls s) (dropdown s) (options s) (input s) (cursor s) (listeners s)
    (nextFn s) (timers s) (calls s).

Definition with_selection (a b : option nat) (s : Editor) : Editor :=
  mkEditor (modes s) (menuModesSource s) (grid s) (editorPointY s) (css s) (engine s)
    (menuModes s) a b (slideUpBound s) (transit s)
    (controls s) (dropdown s) (options s) (input s) (cursor s) (listeners s)
    (nextFn s) (timers s) (calls s).

Definition with_slideUpBound (b : option nat) (s : Editor) : Editor :=
  mkEditor (modes s) (menuModesSource s) (grid s) (editorPointY s) (css s) (engine s)
    (menuModes s) (selectionStart s) (selectionEnd s) b (transit s)
    (controls s) (dropdown s) (options s) (input s) (cursor s) (listeners s)
    (nextFn s) (timers s) (calls s).

Definition with_transit (t : Transit) (s : Editor) : Editor :=
  mkEditor (modes s) (menuModesSource s) (grid s) (editorPointY s) (css s) (engine s)
    (menuModes s) (selectionStart s) (selectionEnd s) (slideUpBound s) t
    (controls s) (dropdown s) (options s) (input s) (cursor s) (listeners s)
    (nextFn s) (timers s) (calls s).

Definition with_controls (f : list Element -> list Element) (s : Editor) : Editor :=
  mkEditor (modes s) (menuModesSource s) (grid s) (editorPointY s) (css s) (engine s)
    (menuModes s) (selectionStart s) (selectionEnd s) (slideUpBound s) (transit s)
    (f (controls s)) (dropdown s) (options s) (input s) (cursor s) (listeners s)
    (nextFn s) (timers s) (calls s).

Definition with_dropdown (f : Dropdown -> Dropdown) (s : Editor) : Editor :=
  mkEditor (modes s) (menuModesSource s) (grid s) (editorPointY s) (css s) (engine s)
    (menuModes s) (selectionStart s) (selectionEnd s) (slideUpBound s) (transit s)
    (controls s) (f (dropdown s)) (options s) (input s) (cursor s) (listeners s)
    (nextFn s) (timers s) (calls s).

Definition with_options (f : OptionsStyle -> OptionsStyle) (s : Editor) : Editor :=
  mkEditor (modes s) (menuModesSource s) (grid s) (editorPointY s) (css s) (engine s)
    (menuModes s) (selectionStart s) (selectionEnd s) (slideUpBound s) (transit s)
    (controls s) (dropdown s) (f (options s)) (input s) (cursor s) (listeners s)
    (nextFn s) (timers s) (calls s).

Definition with_input (i : Input) (s : Editor) : Editor :=
  mkEditor (modes s) (menuModesSource s) (grid s) (editorPointY s) (css s) (engine s)
    (menuModes s) (selectionStart s) (selectionEnd s) (slideUpBound s) (transit s)
    (controls s) (dropdown s) (options s) i (cursor s) (listeners s)
    (nextFn s) (timers s) (calls s).

Definition with_cursor (c : option string) (s : Editor) : Editor :=
  mkEditor (modes s) (menuModesSource s) (grid s) (editorPointY s) (css s) (engine s)
    (menuModes s) (selectionStart s) (selectionEnd s) (slideUpBound s) (transit s)
    (controls s) (dropdown s) (options s) (input s) c (listeners s)
    (nextFn s) (timers s) (calls s).

Definition with_listeners (f : list Listener -> list Listener) (s : Editor) : Editor :=
  mkEditor (modes s) (menuModesSource s) (grid s) (editorPointY s) (css s) (engine s)
    (menuModes s) (selectionStart s) (selectionEnd s) (slideUpBound s) (transit s)
    (controls s) (dropdown s) (options s) (input s) (cursor s) (f (listeners s))
    (nextFn s) (timers s) (calls s).

Definition with_nextFn (n : nat) (s : Editor) : Editor :=
  mkEditor (modes s) (menuModesSource s) (grid s) (editorPointY s) (css s) (engine s)
    (menuModes s) (selectionStart s) (selectionEnd s) (slideUpBound s) (transit s)
    (controls s) (dropdown s) (options s) (input s) (cursor s) (listeners s)
    n (timers s) (calls s).

Definition with_timers (f : list Timer -> list Timer) (s : Editor) : Editor :=
  mkEditor (modes s) (menuModesSource s) (grid s) (editorPointY s) (css s) (engine s)
    (menuModes s) (selectionStart s) (selectionEnd s) (slideUpBound s) (transit s)
    (controls s) (dropdown s) (options s) (input s) (cursor s) (listeners s)
    (nextFn s) (f (timers s)) (calls s).

Definition with_calls (f : list Call -> list Call) (s : Editor) : Editor :=
  mkEditor (modes s) (menuModesSource s) (grid s) (editorPointY s) (css s) (engine s)
    (menuModes s) (selectionStart s) (selectionEnd s) (slideUpBound s) (transit s)
    (controls s) (dropdown s) (options s) (input s) (cursor s) (listeners s)
    (nextFn s) (timers s) (f (calls s)).

(** ** Computations on the editor: state that survives an exception *)

Inductive Outcome (A : Type) :=
| Done (a : A)
| Thrown (e : JS.Exn).
Arguments Done {A} a.
Arguments Thrown {A} e.

Definition Run (A : Type) : Type := Editor -> Outcome A * Editor.

#[global] Instance Run_ret : MRet Run := fun A a s => (Done a, s).

#[global] Instance Run_bind : MBind Run := fun A B k m s =>
  match m s with
  | (Done a, s') => k a s'
  | (Thrown e, s') => (Thrown e, s')
  end.

Definition throw {A} (e : JS.Exn) : Run A := fun s => (Thrown e, s).
Definition get : Run Editor := fun s => (Done s, s).
Definition modify (f : Editor -> Editor) : Run unit := fun s => (Done tt, f s).

(** The state a computation leaves, whether it returned or threw. *)
Definition exec {A} (m : Run A) (s : Editor) : Editor := snd (m s).
Definition returns {A} (m : Run A) (s : Editor) : bool :=
  match fst (m s) with Done _ => true | Thrown _ => false end.

(** ** DOM helpers *)

Definition lower (c : ascii) : ascii :=
  let n := nat_of_ascii c in
  if Nat.leb 65 n && Nat.leb n 90 then ascii_of_nat (n + 32) else c.

(** [s.toLowerCase()] on ASCII text *)
Fixpoint toLowerCase (s : string) : string :=
  match s with
  | EmptyString => EmptyString
  | String c r => String (lower c) (toLowerCase r)
  end.

Definition has_class (c : string) (e : Element) : bool :=
  existsb (String.eqb c) (classList e).

(** ASCII white space: tab, line feed, form feed, carriage return, space. *)
Definition is_space (c : ascii) : bool :=
  let n := nat_of_ascii c in
  Nat.eqb n 9 || Nat.eqb n 10 || Nat.eqb n 12 || Nat.eqb n 13 || Nat.eqb n 32.

(** The maximal runs without white space, in order; [cur] holds the
    characters of the run being read, last first. *)
Fixpoint split_on_spaces (cur : list ascii) (l : list ascii) : list string :=
  match l with
  | [] =>
      match cur with
      | [] => []
      | _ :: _ => [string_of_list_ascii (rev cur)]
      end
  | c :: r =>
      if is_space c
      then match cur with
           | [] => split_on_spaces [] r
           | _ :: _ => string_of_list_ascii (rev cur) :: split_on_spaces [] r
           end
      else split_on_spaces (c :: cur) r
  end.

(** Keep the first occurrence of every token. *)
Fixpoint ordered_set (seen : list string) (l : list string) : list string :=
  match l with
  | [] => []
  | x :: r =>
      if existsb (String.eqb x) seen
      then ordered_set seen r
      else x :: ordered_set (x :: seen) r
  end.

(** [el.className = v], as [el.classList] reads it back: the attribute is
    split on white space into an ordered set of tokens. *)
Definition class_tokens (v : string) : list string :=
  ordered_set [] (split_on_spaces [] (list_ascii_of_string v)).

(** Position of the first element a predicate accepts. *)
Fixpoint index_where {A} (p : A -> bool) (l : list A) : option nat :=
  match l with
  | [] => None
  | x :: r => if p x then Some 0 else S <$> index_where p r
  end.

(** The characters of a plain CSS name: letters, digits, [_] and [-]. *)
Definition is_name_char (c : ascii) : bool :=
  let n := nat_of_ascii c in
  (Nat.leb 97 n && Nat.leb n 122) || (Nat.leb 65 n && Nat.leb n 90) ||
  (Nat.leb 48 n && Nat.leb n 57) || Nat.eqb n 95 || Nat.eqb n 45.

Definition is_css_name (n : string) : bool :=
  forallb is_name_char (list_ascii_of_string n).

(** [el.classList.toggle(c, force)] *)
Definition classList_toggle (c : string) (force : bool) (e : Element) : Element :=
  let cl := classList e in
  mkElement (tagName e)
    (if force
     then (if existsb (String.eqb c) cl then cl else cl ++ [c])
     else List.filter (fun x => negb (String.eqb c x)) cl)
    (title e) (textContent e).

(** Does the selector of a mode match a child of the list?  A selector
    given by a mode designates optgroups (the source calls its match
    [optgroup]); which ones is up to the selector engine [css], by their
    class.  A mode without selector falls back to
    [':scope>option,:scope>optgroup:not([class])'], i.e. the ungrouped
    options and the optgroups that carry no class. *)
Definition selected (css : string -> option string -> bool) (sel : option string) (c : Child) : bool :=
  if JS.truthy_str sel
  then match c with
       | Grp g => css (default "" sel) (og_className g)
       | Opt _ => false
       end
  else match c with
       | Opt _ => true
       | Grp g => match og_className g with None => true | Some _ => false end
       end.

(** [this.dropdown.querySelector(sel)]: the first match in document order. *)
Definition querySelector (s : Editor) (sel : string) : option nat :=
  index_where (selected (css s) (Some sel)) (children (dropdown s)).

(** [this.controls.querySelector('.' + cls)].  Where [cls] (here always
    [toggle-mode-<name>]) is written with letters, digits, [_] and [-] the
    string is the class selector for the token [cls] and finds the first
    child that carries it; with any other character in it (white space, a
    dot, a comma, a bracket, ...) it is another selector or none at all, and
    the answer is the selector engine's. *)
Definition controls_querySelector (s : Editor) (cls : string) : Found :=
  if is_css_name cls
  then match index_where (has_class cls) (controls s) with
       | Some i => Match i
       | None => NoMatch
       end
  else engine s ("." +:+ cls) (controls s).
Arguments controls_querySelector : simpl never.

Definition child_display (c : Child) : string :=
  match c with
  | Opt o => o_display o
  | Grp g => og_display g
  end.

Definition set_child_display (d : string) (c : Child) : Child :=
  match c with
  | Opt o => Opt (mkOption (o_value o) d)
  | Grp g => Grp (mkOptgroup (og_label g) (og_className g) (og_backgroundColor g) d (og_options g))
  end.

Definition with_children (f : list Child -> list Child) (d : Dropdown) : Dropdown :=
  mkDropdown (size d) (d_value d) (f (children d)) (style_selectedIndex d) (style_scrollTop d).

(** Modelled from the spec: [../lib/elfor] is missing from the sources.
    [elfor.each(selector, iteratee, context)] runs the iteratee on every
    element under [context] that the selector matches; the iteratee here is
    [function(el) { el.style.display = display; }], the visibility of the
    mode's option group. *)
Definition each_display (css : string -> option string -> bool) (sel : option string)
    (d : string) (l : list Child) : list Child :=
  (fun c => if selected css sel c then set_child_display d c else c) <$> l.

Definition top_values (l : list Child) : list string :=
  omap (fun c => match c with Opt o => Some (o_value o) | Grp _ => None end) l.

Definition fresh_options (vs : list string) : list OptionEl :=
  map (fun v => mkOption v "") vs.

(** The four lines on the optgroup of a mode with a selector:
    [sum = mode.appendOptions.call(this, optgroup)], then the label loses its
    old sum and gets the new one. *)
Definition rebuild_group (m : Mode) (c : Child) : Child :=
  match c with
  | Grp g =>
      let '(new, sum) := appendOptions m (map o_value (og_options g)) in
      Grp (mkOptgroup
             (JS.strip_sum (og_label g) +:+ " (" +:+ JS.of_nat sum +:+ ")")
             (og_className g) (og_backgroundColor g) (og_display g)
             (og_options g ++ fresh_options new))
  | Opt _ => c
  end.

(** [mode.appendOptions.call(this)] for a mode without selector. *)
Definition rebuild_list (m : Mode) (l : list Child) : list Child :=
  l ++ map Opt (fresh_options (fst (appendOptions m (top_values l)))).

Definition add_listener (n : Node) (ty : string) (f : Fn) (s : Editor) : Editor :=
  with_nextFn (S (nextFn s))
    (with_listeners (fun l => l ++ [mkListener n ty f (nextFn s)]) s).

Definition same_registration (n : Node) (ty : string) (id : nat) (l : Listener) : bool :=
  match n, l_node l with
  | DropperN, DropperN | DropdownN, DropdownN | ControlsN, ControlsN | InputN, InputN =>
      String.eqb ty (l_type l) && Nat.eqb id (l_id l)
  | _, _ => false
  end.

(** [node.removeEventListener(ty, f)]; [f] may be [undefined]. *)
Definition remove_listener (n : Node) (ty : string) (f : option nat) (s : Editor) : Editor :=
  match f with
  | Some id => with_listeners (List.filter (fun l => negb (same_registration n ty id l))) s
  | None => s
  end.

(** [input.setRangeText(replacement, start, end, 'end')]: [None] stands for
    the [IndexSizeError] raised when [start > end]. *)
Definition setRangeText (repl : string) (st en : nat) (i : Input) : option Input :=
  if Nat.ltb en st then None
  else
    let len := String.length (value i) in
    let st' := Nat.min st len in
    let en' := Nat.min en len in
    let caret := st' + String.length repl in
    Some (mkInput
            (String.substring 0 st' (value i) +:+ repl +:+ String.substring en' (len - en') (value i))
            caret caret).

(** ** The functions of ComboBox.js *)

Definition TOGGLE_MODE_PREFIX : string := "toggle-mode-".

Fixpoint forEach {A} (f : A -> Run unit) (l : list A) : Run unit :=
  match l with
  | [] => mret tt
  | x :: r => f x ;; forEach f r
  end.

(** Modelled from the spec: [this.transit()], the query of the lock of
    [../lib/queueless]. *)
Definition transit_query : Run bool :=
  s ← get; mret (inProgress (transit s)).

(** Modelled from the spec: [this.transit(callback)], taking the lock of
    [../lib/queueless] with the function to run when the transition ends. *)
Definition transit_set (cb : option Callback) : Run unit :=
  modify (with_transit (mkTransit true cb)).

(** [initialize]: the wire-ups. *)
Definition initialize : Run unit :=
  modify (with_transit (mkTransit false None)) ;;
  modify (add_listener DropperN "mousedown" ToggleDropDown) ;;
  modify (add_listener DropdownN "mousewheel" StopPropagation) ;;
  modify (add_listener DropdownN "change" InsertText).

Definition setModeIconAndOptgroup (ctrl : nat) (nm : string) (state : option JS.Value) : Run unit :=
  s ← get;
  let mode := JS.find (fun m => String.eqb (name m) nm) (modes s) in
  (* set icon state (color) *)
  modify (with_controls (alter (classList_toggle "active" (JS.truthy state)) ctrl)) ;;
  (* empty the optgroup if hiding; rebuild it if showing *)
  display ← (if JS.truthy state
             then
               modify (with_cursor (Some "progress")) ;;
               modify (with_timers (fun t => t ++ [mkTimer 333])) ;;
               match mode with
               | None => throw (JS.TypeError "mode is undefined")
               | Some m =>
                   if JS.truthy_str (selector m)
                   then
                     match querySelector s (default "" (selector m)) with
                     | Some i =>
                         modify (with_dropdown (with_children (alter (rebuild_group m) i)))
                     | None =>
                         (* appendOptions is given null; optgroup.label then fails *)
                         throw (JS.TypeError "optgroup is null")
                     end
                   else modify (with_dropdown (with_children (rebuild_list m)))
               end ;;
               mret ""
             else mret "none");
  (* hide/show the group *)
  match mode with
  | None => throw (JS.TypeError "mode is undefined")
  | Some m =>
      modify (with_dropdown (with_children (each_display (css s) (selector m) display)))
  end.

(** [this.menuModesSource] as the object the code reads: its own
    properties are the flags. *)
Definition source_object (src : gmap string Z) : gmap string JS.Value :=
  JS.Num <$> src.

(** One round of the first loop of [showEditor]:
    [if (modeName in menuModesSource) menuModes[modeName] = menuModesSource[modeName]]. *)
Definition copy_flag (src : gmap string Z) (acc : gmap string JS.Value) (m : Mode)
    : gmap string JS.Value :=
  if JS.has (source_object src) (name m)
  then match JS.get (source_object src) (name m) with
       | Some v => JS.set acc (name m) v
       | None => acc
       end
  else acc.

(** The proxy [showEditor] builds in its first loop. *)
Definition build_proxy (src : gmap string Z) (ms : list Mode) : gmap string JS.Value :=
  foldl (copy_flag src) ∅ ms.

Definition new_toggle (m : Mode) : Element :=
  mkElement "SPAN" (class_tokens (TOGGLE_MODE_PREFIX +:+ name m))
    ("Toggle " +:+ toLowerCase (JS.or_else (label m) (name m)))
    (symbol m).

Definition new_optgroup (m : Mode) : Child :=
  Grp (mkOptgroup (default "" (label m)) (Some ("submenu-" +:+ name m))
         (backgroundColor m) "" []).

Definition showEditor : Run unit :=
  s0 ← get;
  (* build the proxy *)
  modify (with_menuModes (fun _ => build_proxy (menuModesSource s0) (modes s0))) ;;
  (* wire-ups *)
  modify (add_listener ControlsN "click" OnModeIconClick) ;;
  (* set the initial state of the mode toggles *)
  forEach (fun m =>
    modify (with_controls (fun c => c ++ [new_toggle m])) ;;
    (if JS.truthy_str (label m)
     then modify (with_dropdown (with_children (fun l => l ++ [new_optgroup m])))
     else mret tt) ;;
    s ← get;
    match controls_querySelector s (TOGGLE_MODE_PREFIX +:+ name m) with
    | Match ctrl => setModeIconAndOptgroup ctrl (name m) (JS.get (menuModes s) (name m))
    | NoMatch => throw (JS.TypeError "ctrl is null")
    | BadSelector => throw JS.SyntaxError
    end) (modes s0) ;;
  modify (with_calls (fun c => c ++ [SuperShowEditor])).

Definition hideEditor : Run unit :=
  (* this is where you would persist this.menuModes *)
  modify (with_calls (fun c => c ++ [SuperHideEditor])).

Definition keyup (e : option KeyEvent) : Run unit :=
  match e with
  | Some ev =>
      modify (with_calls (fun c => c ++ [SuperKeyup ev])) ;;
      s ← get;
      if isFilterRow (grid s) (editorPointY s)
      then
        match resolveProperty (grid s) "filteringMode" with
        | Some v =>
            if String.eqb v "immediate"
            then modify (with_calls (fun c => c ++ [SaveEditorValue])) ;;
                 modify (with_calls (fun c => c ++ [MoveEditor]))
            else mret tt
        | None => mret tt
        end
      else mret tt
  | None => mret tt
  end.

(** The target of a click inside the control area: the area itself (a
    [DIV]) or its [i]-th child. *)
Inductive Target :=
| TControls
| TChild (i : nat).

Definition onModeIconClick (e : Target) : Run unit :=
  s ← get;
  match e with
  | TControls => mret tt
  | TChild i =>
      match controls s !! i with
      | None => mret tt
      | Some ctrl =>
          if String.eqb (tagName ctrl) "SPAN"
          then
            (* extract the mode name from the toggle control's class name *)
            match JS.find (JS.starts_with TOGGLE_MODE_PREFIX) (classList ctrl) with
            | None => throw (JS.TypeError "modeClassName is undefined")
            | Some modeClassName =>
                let modeName := JS.substr (String.length TOGGLE_MODE_PREFIX) modeClassName in
                (* toggle mode in the filter *)
                let modeState := JS.Num (JS.xor1 (JS.get (menuModes s) modeName)) in
                modify (with_menuModes (fun mm => JS.set mm modeName modeState)) ;;
                setModeIconAndOptgroup i modeName (Some modeState)
            end
          else mret tt
      end
  end.

Definition slideDown : Run unit :=
  s ← get;
  (* preserve the text box's current text selection *)
  modify (with_selection (Some (in_selectionStart (input s))) (Some (in_selectionEnd (input s)))) ;;
  (* clean up the select list from last usage *)
  modify (with_dropdown (fun d =>
            mkDropdown (size d) (d_value d) (children d) (Some (-1)%Z) (Some 0%Z))) ;;
  (* show the drop-down slide down effect *)
  modify (with_options (fun o => mkOptionsStyle "visible" (height o))) ;;
  let dropDownHeight := size (dropdown s) * 15 in
  modify (with_options (fun o =>
            mkOptionsStyle (visibility o) (JS.of_nat (2 + 15 + dropDownHeight + 2) +:+ "px"))) ;;
  (* while in drop-down, listen for clicks in text box *)
  modify (fun s' => with_slideUpBound (Some (nextFn s')) (add_listener InputN "mousedown" SlideUp s')) ;;
  (* schedule the transition flag *)
  transit_set None.

Definition slideUp : Run unit :=
  (* stop listening to input clicks *)
  modify (fun s => remove_listener InputN "mousedown" (slideUpBound s) s) ;;
  (* start the slide up effect *)
  modify (with_options (fun o => mkOptionsStyle (visibility o) "0")) ;;
  (* schedule the hide to occur after the slide up effect *)
  transit_set (Some HideOptions).

Definition stateToActionMap (state : string) : option (Run unit) :=
  if String.eqb state "hidden" then Some slideDown
  else if String.eqb state "visible" then Some slideUp
  else None.

Definition toggleDropDown : Run unit :=
  transitionInProgress ← transit_query;
  if negb transitionInProgress
  then
    s ← get;
    let state := visibility (options s) in
    match stateToActionMap state with
    | Some action => action
    | None => throw (JS.TypeError "stateToActionMap[state] is undefined")
    end
  else mret tt.

Definition insertText : Run unit :=
  (* insert the text at the insertion point or over the selected text *)
  modify (with_calls (fun c => c ++ [InputFocus])) ;;
  s ← get;
  match setRangeText (d_value (dropdown s))
          (default 0 (selectionStart s)) (default 0 (selectionEnd s)) (input s) with
  | Some i => modify (with_input i)
  | None => throw JS.IndexSizeError
  end ;;
  (* close the drop-down *)
  toggleDropDown.

(** ** Events from the browser *)

(** Modelled from the spec: the transition-completion signal on
    [this.options], as [../lib/queueless] handles it: the kept function
    runs, the lock is released. *)
Definition transitionEnd : Run unit :=
  s ← get;
  if inProgress (transit s)
  then
    match atEnd (transit s) with
    | Some HideOptions => modify (with_options (fun o => mkOptionsStyle "hidden" (height o)))
    | None => mret tt
    end ;;
    modify (with_transit (mkTransit false None))
  else mret tt.

(** The oldest pending timer fires: [style.cursor = null]. *)
Definition timerFires : Run unit :=
  s ← get;
  match timers s with
  | _ :: rest => modify (with_timers (fun _ => rest)) ;; modify (with_cursor None)
  | [] => mret tt
  end.

(** The user picks an item of the list: [this.dropdown.value] becomes its
    value (the [change] event follows). *)
Definition choose (v : string) (s : Editor) : Editor :=
  with_dropdown (fun d =>
    mkDropdown (size d) v (children d) (style_selectedIndex d) (style_scrollTop d)) s.

(** The browser delivers an event to a node: the listeners registered for
    it run in registration order; an exception in one is reported and does
    not stop the others. *)
Definition call_listener (f : Fn) (tgt : Target) : Run unit :=
  match f with
  | ToggleDropDown => toggleDropDown
  | StopPropagation => mret tt
  | InsertText => insertText
  | OnModeIconClick => onModeIconClick tgt
  | SlideUp => slideUp
  end.

Definition listens (n : Node) (ty : string) (l : Listener) : bool :=
  same_registration n ty (l_id l) l.

(** A listener removed by an earlier listener of the same dispatch does not
    run. *)
Definition still_registered (l : Listener) (s : Editor) : bool :=
  existsb (same_registration (l_node l) (l_type l) (l_id l)) (listeners s).

Definition dispatch (n : Node) (ty : string) (tgt : Target) : Run unit :=
  s ← get;
  forEach (fun l =>
             modify (fun s' =>
                       if still_registered l s'
                       then exec (call_listener (l_fn l) tgt) s'
                       else s'))
    (List.filter (listens n ty) (listeners s)).

(** What can happen between the moment the drop-down slides open and the
    choice of an item: clicks in the control area, a mouse-down in the text
    box, the end of a transition, key-ups, the cursor timer, closing the
    editor, the user moving the selection of the list, and the user typing
    in the text box or moving its selection, which leaves the text box with
    another value and another selection. *)
Inductive Event :=
| EClick (t : Target)
| EInputMouseDown
| ETransitionEnd
| EKeyUp (e : option KeyEvent)
| ETimer
| EHide
| EChoose (v : string)
| EEdit (i : Input).

Definition handle (ev : Event) (s : Editor) : Editor :=
  match ev with
  | EClick t => exec (onModeIconClick t) s
  | EInputMouseDown => exec slideUp s
  | ETransitionEnd => exec transitionEnd s
  | EKeyUp e => exec (keyup e) s
  | ETimer => exec timerFires s
  | EHide => exec hideEditor s
  | EChoose v => choose v s
  | EEdit i => with_input i s
  end.

Definition after (evs : list Event) (s : Editor) : Editor :=
  foldl (fun acc ev => handle ev acc) s evs.

(** Everything that can happen to a constructed editor: the grid shows or
    hides it or hands it a key-up, the browser delivers an event to one of
    the nodes the file listens on, a transition of the options ends, a
    timer fires, the user picks an item or edits the text box. *)
Inductive Action :=
| AShow
| AHide
| AKeyUp (e : option KeyEvent)
| AClick (t : Target)
| ADropperMouseDown
| AInputMouseDown
| AWheel
| AChange (v : string)
| ATransitionEnd
| ATimer
| AEdit (i : Input).

Definition perform (a : Action) (s : Editor) : Editor :=
  match a with
  | AShow => exec showEditor s
  | AHide => exec hideEditor s
  | AKeyUp e => exec (keyup e) s
  | AClick t => exec (dispatch ControlsN "click" t) s
  | ADropperMouseDown => exec (dispatch DropperN "mousedown" TControls) s
  | AInputMouseDown => exec (dispatch InputN "mousedown" TControls) s
  | AWheel => exec (dispatch DropdownN "mousewheel" TControls) s
  | AChange v => exec (dispatch DropdownN "change" TControls) (choose v s)
  | ATransitionEnd => exec transitionEnd s
  | ATimer => exec timerFires s
  | AEdit i => with_input i s
  end.

Definition performed (acts : list Action) (s : Editor) : Editor :=
  foldl (fun acc a => perform a acc) s acts.

(** * Observations on the editor *)

(** The fields [setModeIconAndOptgroup] never writes. *)
Definition same_outside_modes (s s' : Editor) : Prop :=
  modes s' = modes s /\ menuModesSource s' = menuModesSource s /\
  menuModes s' = menuModes s /\ css s' = css s /\ grid s' = grid s /\
  transit s' = transit s /\ options s' = options s /\
  listeners s' = listeners s /\ input s' = input s /\
  selectionStart s' = selectionStart s /\ selectionEnd s' = selectionEnd s /\
  slideUpBound s' = slideUpBound s /\ nextFn s' = nextFn s /\ calls s' = calls s.

(** The display a flag stands for: [null] (read back as ['']) when truthy,
    ['none'] when falsy. *)
Definition display_of (state : option JS.Value) : string :=
  if JS.truthy state then "" else "none".

(** Every element of the list that the mode's selector matches has display [d]. *)
Definition all_display (d : string) (s : Editor) (m : Mode) : Prop :=
  forall c, c ∈ children (dropdown s) ->
    selected (css s) (selector m) c = true -> child_display c = d.

(** The configuration the editor is given and only reads. *)
Definition same_config (s s' : Editor) : Prop :=
  modes s' = modes s /\ menuModesSource s' = menuModesSource s /\
  grid s' = grid s /\ css s' = css s /\ editorPointY s' = editorPointY s.

(** The computed visibility is one of the two keys of [stateToActionMap]. *)
Definition two_valued (s : Editor) : Prop :=
  visibility (options s) = "hidden" \/ visibility (options s) = "visible".

(** No registered listener carries the identity the next function object
    will get. *)
Definition ids_fresh (s : Editor) : Prop :=
  Forall (fun l => l_id l < nextFn s) (listeners s).

(** What one step of the editor may do to the configuration, the
    visibility and the registered listeners. *)
Definition advances (s s' : Editor) : Prop :=
  same_config s s' /\
  (visibility (options s') = visibility (options s) \/
   visibility (options s') = "hidden" \/ visibility (options s') = "visible") /\
  nextFn s <= nextFn s' /\
  forall l, l ∈ listeners s' -> l ∈ listeners s \/ nextFn s <= l_id l < nextFn s'.

(** The toggle [showEditor] leaves for a mode: marked active when the flag
    read from the proxy [mm] is truthy. *)
Definition toggle_of (mm : gmap string JS.Value) (m : Mode) : Element :=
  mkElement "SPAN"
    (if JS.truthy (JS.get mm (name m))
     then [TOGGLE_MODE_PREFIX +:+ name m; "active"]
     else [TOGGLE_MODE_PREFIX +:+ name m])
    ("Toggle " +:+ toLowerCase (JS.or_else (label m) (name m)))
    (symbol m).

(** A name made of letters, digits, [_] and [-]: appended to
    [toggle-mode-] it gives one class token, and [.toggle-mode-<name>] is
    the class selector for that token. *)
Definition css_name (n : string) : Prop :=
  Forall (fun c => is_name_char c = true) (list_ascii_of_string n).

(** A name without white space: as a class attribute it is one token. *)
Definition one_token (n : string) : Prop :=
  Forall (fun c => is_space c = false) (list_ascii_of_string n).

(** Text within ASCII, where [toLowerCase] touches the letters [A]-[Z] only. *)
Definition ascii_text (t : string) : Prop :=
  Forall (fun c => nat_of_ascii c < 128) (list_ascii_of_string t).

(** A label that does not end in a sum, that is in [" ("], one or more
    digits and [")"]. *)
Definition no_final_sum (l : string) : Prop :=
  forall base ds,
    ds <> "" ->
    Forall (fun c => JS.is_digit c = true) (list_ascii_of_string ds) ->
    l <> base +:+ " (" +:+ ds +:+ ")".

(** A label as the text [base]: bare, or followed by one sum. *)
Inductive sum_label (base : string) : string -> Prop :=
| without_sum :
    no_final_sum base -> sum_label base base
| with_sum (ds : string) :
    ds <> "" ->
    Forall (fun c => JS.is_digit c = true) (list_ascii_of_string ds) ->
    sum_label base (base +:+ " (" +:+ ds +:+ ")").

(** The class attributes of the optgroups of a list, in document order. *)
Definition group_classes (l : list Child) : list (option string) :=
  omap (fun c => match c with
                 | Grp g => Some (og_className g)
                 | Opt _ => None
                 end) l.

(** The optgroup classes [showEditor] creates: one per mode with a label. *)
Definition labelled_classes (ms : list Mode) : list (option string) :=
  omap (fun m => if JS.truthy_str (label m)
                 then Some (Some ("submenu-" +:+ name m))
                 else None) ms.
(** The body of the second loop of [showEditor], for one mode. *)
Definition show_mode (m : Mode) : Run unit :=
  modify (with_controls (fun c => c ++ [new_toggle m])) ;;
  (if JS.truthy_str (label m)
   then modify (with_dropdown (with_children (fun l => l ++ [new_optgroup m])))
   else mret tt) ;;
  s ← get;
  match controls_querySelector s (TOGGLE_MODE_PREFIX +:+ name m) with
  | Match ctrl => setModeIconAndOptgroup ctrl (name m) (JS.get (menuModes s) (name m))
  | NoMatch => throw (JS.TypeError "ctrl is null")
  | BadSelector => throw JS.SyntaxError
  end.

(** * The statements of the specification that the code does not meet

    Each is given the way the specification words it; the properties below
    refute it on a sample editor and prove what holds instead. *)

(** C1 as the specification states it: a toggle requested while a
    transition is in flight is applied, once, after that transition
    completes. *)
Definition deferred_toggle_honoured (s : Editor) : Prop :=
  inProgress (transit s) = true ->
  exec transitionEnd (exec toggleDropDown s) = exec toggleDropDown (exec transitionEnd s).

(** C2 as the specification states it: whatever display the elements
    matched by the mode's selector had before, they have it again after two
    clicks on the mode's toggle. *)
Definition toggle_twice_restores (s : Editor) (i : nat) (m : Mode) : Prop :=
  forall d,
    all_display d s m ->
    all_display d (exec (onModeIconClick (TChild i)) (exec (onModeIconClick (TChild i)) s)) m.

(** C4 as the specification states it: the click is a no-op. *)
Definition silent_no_op (e : Target) (s : Editor) : Prop :=
  onModeIconClick e s = (Done tt, s).

(** C5 as the specification states it: toggling a mode starts a transition
    guarded by the transition lock. *)
Definition mode_toggle_starts_transition (s : Editor) (i : nat) : Prop :=
  inProgress (transit (exec (onModeIconClick (TChild i)) s)) = true.



(** C8 as the specification states it: the proxy holds the keys of the
    source that name a mode of [this.modes], each with the source's value,
    and no other key. *)
Definition proxy_restricts_source (s : Editor) : Prop :=
  menuModes (exec showEditor s)
  = source_object (filter (fun kv => kv.1 ∈ name <$> modes s) (menuModesSource s)).

(** * Sample editors

    Concrete editors on which the statements below are exercised. *)

(** A selector engine for class selectors of the form [optgroup.<class>]. *)
Definition css_class (sel : string) (cls : option string) : bool :=
  match cls with
  | Some c => String.eqb sel ("optgroup." +:+ c)
  | None => false
  end.

(** A selector engine that finds nothing for the selectors left to it. *)
Definition no_match (sel : string) (l : list Element) : Found := NoMatch.

Definition sample_grid : Grid :=
  mkGrid (fun y => Z.eqb y 0)
         (fun p => if String.eqb p "filteringMode" then Some "immediate" else None).

(** A freshly constructed editor over the template: drop-down hidden, text
    box holding [hello] with [el] selected. *)
Definition blank (ms : list Mode) (src : gmap string Z) : Editor :=
  mkEditor ms src sample_grid 0 css_class no_match
    ∅ None None None (mkTransit false None)
    [] (mkDropdown 12 "" [] None None) (mkOptionsStyle "hidden" "") (mkInput "hello" 1 3)
    None [] 0 [] [].

(** The editor in the middle of its first slide-down. *)
Definition sliding_down : Editor :=
  exec toggleDropDown (exec initialize (blank [] ∅)).

(** A sample mode with a labelled option group. *)
Definition distinctValues : Mode :=
  mkMode "distinctValues" (Some "Distinct values")
    (Some "optgroup.submenu-distinctValues") "D" "#eef"
    (fun old => (["a"; "b"; "c"], length old + 3)).

(** The editor shown over a cell, its one mode enabled. *)
Definition shown : Editor :=
  exec showEditor
    (exec initialize (blank [distinctValues] {["distinctValues" := 1%Z]})).

(** The same editor with its drop-down open and at rest. *)
Definition opened : Editor :=
  exec transitionEnd (exec toggleDropDown shown).

(** A control area holding a span that names no mode of [this.modes]. *)
Definition stray_toggle : Editor :=
  with_controls (fun c => c ++ [mkElement "SPAN" ["toggle-mode-ghost"] "" ""]) shown.

(** Two modes over one optgroup: [x] owns it, [y] selects it too. *)
Definition mode_x : Mode :=
  mkMode "x" (Some "X") (Some "optgroup.submenu-x") "x" "" (fun _ => ([], 0)).

Definition mode_y : Mode :=
  mkMode "y" None (Some "optgroup.submenu-x") "y" "" (fun _ => ([], 0)).

Definition shared_group : Editor :=
  exec showEditor
    (exec initialize (blank [mode_x; mode_y] {["x" := 1%Z; "y" := 0%Z]})).

(** A mode that bears the name of a member of [Object.prototype], on an
    editor whose source of flags is the empty object. *)
Definition mode_constructor : Mode :=
  mkMode "constructor" (Some "Constructor") (Some "optgroup.submenu-constructor")
    "C" "" (fun _ => ([], 0)).

Definition named_constructor : Editor :=
  exec initialize (blank [mode_constructor] ∅).


(** * Properties *)

Ltac run :=
  unfold exec, returns, transit_query, transit_set, mbind, mret, Run_bind, Run_ret,
    get, modify, throw in *;
  simpl in *.

(** ** What a mode toggle leaves alone *)

Lemma same_outside_modes_refl s : same_outside_modes s s.
Proof. repeat split. Qed.

Lemma same_outside_modes_trans s1 s2 s3 :
  same_outside_modes s1 s2 -> same_outside_modes s2 s3 -> same_outside_modes s1 s3.
Proof.
  unfold same_outside_modes. intros H1 H2.
  repeat match goal with H : _ /\ _ |- _ => destruct H end.
  repeat split; congruence.
Qed.

Lemma setModeIconAndOptgroup_frame ctrl nm st s :
  same_outside_modes s (exec (setModeIconAndOptgroup ctrl nm st) s).
Proof.
  unfold setModeIconAndOptgroup, JS.find. run.
  destruct (JS.truthy st); simpl;
    destruct (List.find _ (modes s)) as [m|]; simpl;
    try (destruct (JS.truthy_str (selector m)); simpl);
    try (destruct (querySelector _ _); simpl);
    repeat split.
Qed.

Lemma forEach_related {A} (R : Editor -> Editor -> Prop) (f : A -> Run unit) (l : list A) :
  (forall s, R s s) ->
  (forall s1 s2 s3, R s1 s2 -> R s2 s3 -> R s1 s3) ->
  (forall x s, R s (exec (f x) s)) ->
  forall s, R s (exec (forEach f l) s).
Proof.
  intros Hrefl Htrans Hf. induction l as [|x r IH]; intros s.
  - apply Hrefl.
  - specialize (Hf x s). unfold exec in *. simpl.
    unfold mbind, Run_bind. destruct (f x s) as [[[]|e] s1]; simpl in *.
    + eapply Htrans; [exact Hf | apply IH].
    + exact Hf.
Qed.

(** ** Reading and writing flags *)

Lemma set_own (o : gmap string JS.Value) (k : string) (v w : JS.Value) :
  o !! k = Some w -> JS.set o k v = <[k := v]> o.
Proof. intros H. unfold JS.set. rewrite H. by destruct (String.eqb k "__proto__"). Qed.

Lemma set_named (o : gmap string JS.Value) (k : string) (v : JS.Value) :
  k <> "__proto__" -> JS.set o k v = <[k := v]> o.
Proof.
  intros H. unfold JS.set. by destruct (String.eqb_spec k "__proto__").
Qed.

Lemma set_lookup_ne (o : gmap string JS.Value) (k j : string) (v : JS.Value) :
  j <> k -> JS.set o k v !! j = o !! j.
Proof.
  intros H. unfold JS.set.
  destruct (String.eqb k "__proto__"); [destruct (o !! k)|];
    rewrite ?lookup_insert_ne; done.
Qed.

Lemma set_keeps_proto (o : gmap string JS.Value) (k : string) (v : JS.Value) :
  o !! "__proto__" = None -> JS.set o k v !! "__proto__" = None.
Proof.
  intros H. unfold JS.set. destruct (String.eqb_spec k "__proto__") as [->|Hne].
  - by rewrite H.
  - by rewrite lookup_insert_ne.
Qed.

Lemma get_own (o : gmap string JS.Value) (k : string) (v : JS.Value) :
  o !! k = Some v -> JS.get o k = Some v.
Proof. intros H. unfold JS.get. by rewrite H. Qed.

(** An inherited member converts to the same number as a missing flag. *)
Lemma int32_of_get (o : gmap string JS.Value) (k : string) :
  JS.int32_of (JS.get o k) = JS.int32_of (o !! k).
Proof.
  unfold JS.get. destruct (o !! k) as [v|]; [done|].
  unfold JS.inherited. by destruct (existsb _ _).
Qed.

(** ** The proxy of [showEditor] *)

Lemma copy_flag_keeps_proto (src : gmap string Z) (acc : gmap string JS.Value) (m : Mode) :
  acc !! "__proto__" = None -> copy_flag src acc m !! "__proto__" = None.
Proof.
  intros H. unfold copy_flag. destruct (JS.has _ _); [|done].
  destruct (JS.get _ _); [by apply set_keeps_proto | done].
Qed.

Lemma copy_flag_lookup (src : gmap string Z) (acc : gmap string JS.Value) (m : Mode) (k : string) :
  acc !! "__proto__" = None ->
  copy_flag src acc m !! k
  = if decide (k = name m /\ k <> "__proto__")
    then match JS.get (source_object src) k with
         | Some v => Some v
         | None => acc !! k
         end
    else acc !! k.
Proof.
  intros Hp. unfold copy_flag, JS.has.
  destruct (decide (k = name m)) as [->|Hne].
  - destruct (decide (name m = "__proto__")) as [Hproto|Hproto].
    + rewrite decide_False by (intros [_ ?]; done).
      destruct (JS.get _ _) as [v|]; [|done].
      unfold JS.set. rewrite Hproto. simpl. by rewrite Hp.
    + rewrite decide_True by done.
      destruct (JS.get _ _) as [v|]; [|done].
      by rewrite set_named, lookup_insert_eq.
  - rewrite decide_False by (intros [? _]; done).
    destruct (JS.get _ _) as [v|]; [|done]. by apply set_lookup_ne.
Qed.

Lemma build_proxy_lookup (src : gmap string Z) (ms : list Mode)
    (acc : gmap string JS.Value) (k : string) :
  acc !! "__proto__" = None ->
  foldl (copy_flag src) acc ms !! k
  = if decide (k ∈ name <$> ms /\ k <> "__proto__")
    then match JS.get (source_object src) k with
         | Some v => Some v
         | None => acc !! k
         end
    else acc !! k.
Proof.
  revert acc. induction ms as [|m r IH]; intros acc Hp.
  - rewrite decide_False; [reflexivity | intros [H _]; by apply not_elem_of_nil in H].
  - cbn [foldl]. rewrite IH by (by apply copy_flag_keeps_proto).
    rewrite copy_flag_lookup by done. rewrite fmap_cons.
    destruct (decide (k = name m /\ k <> "__proto__")) as [[-> Hproto]|Hhere].
    + rewrite (decide_True (P := name m ∈ name m :: (name <$> r) /\ _))
        by (split; [apply list_elem_of_here | done]).
      destruct (JS.get _ _); by case_decide.
    + destruct (decide (k ∈ name <$> r /\ k <> "__proto__")) as [[Hin Hproto]|Hlater].
      * rewrite decide_True by (split; [by apply list_elem_of_further | done]). done.
      * rewrite decide_False; [done|]. intros [Hin Hproto].
        apply elem_of_cons in Hin as [->|Hin]; [by apply Hhere | by apply Hlater].
Qed.

(** The keys and values of the proxy. *)
Lemma build_proxy_spec (src : gmap string Z) (ms : list Mode) (k : string) :
  build_proxy src ms !! k
  = if decide (k ∈ name <$> ms /\ k <> "__proto__")
    then JS.get (source_object src) k
    else None.
Proof.
  unfold build_proxy. rewrite build_proxy_lookup by apply lookup_empty.
  rewrite lookup_empty. case_decide; [|done]. by destruct (JS.get _ _).
Qed.

Lemma showEditor_toggle_frame (m : Mode) (s : Editor) :
  same_outside_modes s
    (exec (modify (with_controls (fun c => c ++ [new_toggle m])) ;;
           (if JS.truthy_str (label m)
            then modify (with_dropdown (with_children (fun l => l ++ [new_optgroup m])))
            else mret tt) ;;
           s' ← get;
           match controls_querySelector s' (TOGGLE_MODE_PREFIX +:+ name m) with
           | Match ctrl => setModeIconAndOptgroup ctrl (name m) (JS.get (menuModes s') (name m))
           | NoMatch => throw (JS.TypeError "ctrl is null")
           | BadSelector => throw JS.SyntaxError
           end) s).
Proof.
  run. destruct (JS.truthy_str (label m)); simpl;
    match goal with
    | |- context [controls_querySelector ?s1 ?c] =>
        destruct (controls_querySelector s1 c) as [ctrl| |]
    end; simpl;
    first [ by repeat split
          | eapply same_outside_modes_trans;
              [| apply setModeIconAndOptgroup_frame]; by repeat split ].
Qed.

Lemma showEditor_proxy (s : Editor) :
  menuModes (exec showEditor s) = build_proxy (menuModesSource s) (modes s) /\
  menuModesSource (exec showEditor s) = menuModesSource s.
Proof.
  unfold showEditor, exec.
  cbv beta iota delta [mbind Run_bind get modify mret Run_ret].
  match goal with
  | |- context [forEach ?f ?l ?s1] =>
      pose proof (forEach_related same_outside_modes f l
                    same_outside_modes_refl same_outside_modes_trans
                    (fun x st => showEditor_toggle_frame x st) s1) as Hfr;
      unfold exec in Hfr; destruct (forEach f l s1) as [[[]|e] s2]
  end; simpl in *;
    destruct Hfr as (_ & Hsrc & Hmm & _); (split; [rewrite Hmm | rewrite Hsrc]; reflexivity).
Qed.

(** C8, counterexample: for a mode named [constructor] and an empty source,
    [showEditor] completes with the key [constructor] in the proxy, holding
    the function every object inherits; the source has no such key. *)
Lemma inherited_name_is_copied :
  returns showEditor named_constructor = true /\
  menuModesSource named_constructor !! "constructor" = None /\
  menuModes (exec showEditor named_constructor) !! "constructor"
    = Some (JS.Obj "constructor") /\
  ~ proxy_restricts_source named_constructor.
Proof.
  split; [by vm_compute|]. split; [by vm_compute|].
  assert (H : menuModes (exec showEditor named_constructor) !! "constructor"
              = Some (JS.Obj "constructor")).
  { rewrite (proj1 (showEditor_proxy named_constructor)), build_proxy_spec.
    vm_compute. reflexivity. }
  split; [exact H|]. unfold proxy_restricts_source. intros Heq.
  rewrite Heq in H. unfold source_object in H. rewrite lookup_fmap in H.
  destruct (filter _ _ !! "constructor") as [z|]; discriminate H.
Qed.

(** C8, amended: [showEditor] leaves in [this.menuModes] the restriction,
    to the names of the modes in [this.modes], of what the [in] operator
    and a property read find on [this.menuModesSource]: its own keys and
    the members inherited from [Object.prototype] alike.  A mode name found
    there is mapped to the value read from the source, except that the name
    ['__proto__'] adds no key; no other key is present, and the source
    itself is not modified.  This holds for the state [showEditor] leaves
    whether or not a later step of it throws. *)
Theorem showEditor_menuModes_restriction (s : Editor) :
  (forall k : string,
     menuModes (exec showEditor s) !! k
     = if decide (k ∈ name <$> modes s /\ k <> "__proto__")
       then JS.get (source_object (menuModesSource s)) k
       else None) /\
  menuModesSource (exec showEditor s) = menuModesSource s.
Proof.
  destruct (showEditor_proxy s) as [Hmm Hsrc]. split; [|exact Hsrc].
  intros k. rewrite Hmm. apply build_proxy_spec.
Qed.

(** Where no mode bears the name of a member of [Object.prototype], the
    proxy is the restriction of the source's own keys. *)
Lemma plain_names_restrict_source (s : Editor) :
  (forall m, m ∈ modes s -> JS.inherited (name m) = None) ->
  proxy_restricts_source s.
Proof.
  intros Hplain. unfold proxy_restricts_source.
  rewrite (proj1 (showEditor_proxy s)). apply map_eq. intros k.
  rewrite build_proxy_spec. unfold source_object. rewrite lookup_fmap.
  destruct (decide (k ∈ name <$> modes s)) as [Hin|Hnin].
  - assert (Hk : JS.inherited k = None).
    { apply list_elem_of_fmap in Hin as (m & -> & Hm). by apply Hplain. }
    assert (Hproto : k <> "__proto__") by (intros ->; discriminate Hk).
    rewrite decide_True by done. unfold JS.get. rewrite lookup_fmap, Hk.
    destruct (menuModesSource s !! k) as [z|] eqn:Hs; simpl.
    + by rewrite (map_lookup_filter_Some_2 _ _ k z Hs Hin).
    + destruct (filter _ _ !! k) as [z|] eqn:Hf; [|done].
      apply map_lookup_filter_Some in Hf as [Hf _]. congruence.
  - rewrite decide_False by (intros [? _]; done).
    destruct (filter _ _ !! k) as [z|] eqn:Hf; [|done].
    apply map_lookup_filter_Some in Hf as [_ Hf]. done.
Qed.

(** ** The drop-down toggle and the transition lock *)



(** C1, counterexample: a toggle requested during the slide-down is not
    applied after the transition completes; the drop-down is left open. *)
Lemma toggle_in_flight_not_deferred : ~ deferred_toggle_honoured sliding_down.
Proof.
  unfold deferred_toggle_honoured. intros H.
  specialize (H eq_refl).
  apply (f_equal (fun s => height (options s))) in H.
  vm_compute in H. discriminate H.
Qed.

(** C1, amended: while a transition is in flight [toggleDropDown] does
    nothing; the request is dropped, not deferred, and the transition
    completes as if no toggle had been requested. *)
Theorem toggle_in_flight_is_dropped (s : Editor) :
  inProgress (transit s) = true ->
  toggleDropDown s = (Done tt, s) /\
  exec transitionEnd (exec toggleDropDown s) = exec transitionEnd s.
Proof.
  intros Hbusy. assert (H : toggleDropDown s = (Done tt, s)).
  { unfold toggleDropDown. run. by rewrite Hbusy. }
  split; [exact H|]. unfold exec. by rewrite H.
Qed.

Lemma toggle_in_flight_is_dropped_witness :
  toggleDropDown sliding_down = (Done tt, sliding_down) /\
  exec transitionEnd (exec toggleDropDown sliding_down) = exec transitionEnd sliding_down.
Proof.
  apply (toggle_in_flight_is_dropped sliding_down). reflexivity.
Defined.

(** ** Key-up *)

(** C6: a key-up event runs the superclass's handler, and then commits the
    pending value ([saveEditorValue]) and moves the editor exactly when the
    grid classifies the editor's row as a filter row and resolves
    [filteringMode] to ['immediate']; otherwise nothing follows the
    superclass's handler. *)
Theorem keyup_commits_iff_immediate_filter (s : Editor) (ev : KeyEvent) :
  keyup (Some ev) s =
    (Done tt,
     with_calls (fun c =>
       c ++ SuperKeyup ev ::
         (if decide (isFilterRow (grid s) (editorPointY s) = true /\
                     resolveProperty (grid s) "filteringMode" = Some "immediate")
          then [SaveEditorValue; MoveEditor]
          else [])) s).
Proof.
  unfold keyup. run.
  destruct (isFilterRow (grid s) (editorPointY s)) eqn:Hrow; simpl.
  - destruct (resolveProperty (grid s) "filteringMode") as [v|] eqn:Hp; simpl.
    + destruct (String.eqb_spec v "immediate") as [->|Hne]; simpl.
      * unfold with_calls. simpl. by rewrite <- !app_assoc.
      * case_decide as Hd; [|reflexivity]. destruct Hd as [_ [= ?]]. done.
    + reflexivity.
  - reflexivity.
Qed.

(** ** Listeners and closing the editor *)



(** The listener left behind is live: a mouse-down on the text box of the
    closed editor still runs [slideUp]. *)
Lemma leftover_listener_fires :
  exec (dispatch InputN "mousedown" TControls) (exec hideEditor opened)
  = exec slideUp (exec hideEditor opened).
Proof. vm_compute. reflexivity. Qed.

(** A mouse-down on the dropper of an initialized editor is a toggle request. *)
Lemma dropper_mousedown_toggles (ms : list Mode) (src : gmap string Z) :
  exec (dispatch DropperN "mousedown" TControls) (exec initialize (blank ms src))
  = exec toggleDropDown (exec initialize (blank ms src)).
Proof. vm_compute. reflexivity. Qed.

(** ** Inserting the chosen item *)

(** [insertText] on a state that still holds the range [slideDown] saved. *)
Lemma insertText_saved_range (s0 s : Editor) :
  in_selectionStart (input s0) <= in_selectionEnd (input s0) ->
  selectionStart s = selectionStart (exec slideDown s0) ->
  selectionEnd s = selectionEnd (exec slideDown s0) ->
  let a := Nat.min (in_selectionStart (input s0)) (String.length (value (input s))) in
  let b := Nat.min (in_selectionEnd (input s0)) (String.length (value (input s))) in
  let chosen := d_value (dropdown s) in
  let caret := a + String.length chosen in
  insertText s =
    toggleDropDown
      (with_input
         (mkInput
            (String.substring 0 a (value (input s)) +:+ chosen +:+
             String.substring b (String.length (value (input s)) - b) (value (input s)))
            caret caret)
         (with_calls (fun c => c ++ [InputFocus]) s)).
Proof.
  intros Hle Hst Hen. unfold slideDown in Hst, Hen. run.
  unfold insertText. run. rewrite Hst, Hen. simpl.
  unfold setRangeText.
  destruct (Nat.ltb_spec (in_selectionEnd (input s0)) (in_selectionStart (input s0)));
    [lia|]. simpl.
  reflexivity.
Qed.

(** Only [slideDown] writes the saved range. *)
Lemma handle_keeps_saved_range (ev : Event) (s : Editor) :
  selectionStart (handle ev s) = selectionStart s /\
  selectionEnd (handle ev s) = selectionEnd s.
Proof.
  destruct ev as [t| | |e| | |v|i]; simpl.
  - unfold onModeIconClick. run. destruct t as [|i]; simpl; [done|].
    destruct (controls s !! i) as [ctrl|]; simpl; [|done].
    destruct (String.eqb (tagName ctrl) "SPAN"); simpl; [|done].
    destruct (JS.find _ (classList ctrl)) as [c|]; simpl; [|done].
    match goal with
    | |- context [setModeIconAndOptgroup ?i ?n ?st ?s1] =>
        destruct (setModeIconAndOptgroup_frame i n st s1)
          as (_ & _ & _ & _ & _ & _ & _ & _ & _ & Hst & Hen & _)
    end.
    unfold exec in *. by rewrite Hst, Hen.
  - unfold slideUp, remove_listener. run. by destruct (slideUpBound s).
  - unfold transitionEnd. run. destruct (inProgress (transit s)); simpl; [|done].
    by destruct (atEnd (transit s)) as [[]|].
  - unfold keyup. run. destruct e as [ev|]; simpl; [|done].
    destruct (isFilterRow _ _); simpl; [|done].
    destruct (resolveProperty _ _) as [v|]; simpl; [|done].
    by destruct (String.eqb v "immediate").
  - unfold timerFires. run. by destruct (timers s).
  - done.
  - done.
  - done.
Qed.

Lemma after_keeps_saved_range (evs : list Event) (s : Editor) :
  selectionStart (after evs s) = selectionStart s /\
  selectionEnd (after evs s) = selectionEnd s.
Proof.
  revert s. induction evs as [|ev evs IH]; intros s; [done|].
  unfold after in *. simpl.
  destruct (IH (handle ev s)) as [H1 H2].
  destruct (handle_keeps_saved_range ev s) as [H3 H4].
  split; congruence.
Qed.

(** C10: choosing an item of the drop-down inserts the selected value over
    the selection range that [slideDown] captured from the text box at the
    moment the drop-down slid open, whatever happened in between (the text
    box may hold another text and another selection by then), puts the caret
    right after the inserted text, and then requests the toggle that closes
    the drop-down. *)
Theorem insertText_over_captured_selection (s0 : Editor) (evs : list Event) :
  in_selectionStart (input s0) <= in_selectionEnd (input s0) ->
  let s := after evs (exec slideDown s0) in
  let a := Nat.min (in_selectionStart (input s0)) (String.length (value (input s))) in
  let b := Nat.min (in_selectionEnd (input s0)) (String.length (value (input s))) in
  let chosen := d_value (dropdown s) in
  let caret := a + String.length chosen in
  insertText s =
    toggleDropDown
      (with_input
         (mkInput
            (String.substring 0 a (value (input s)) +:+ chosen +:+
             String.substring b (String.length (value (input s)) - b) (value (input s)))
            caret caret)
         (with_calls (fun c => c ++ [InputFocus]) s)).
Proof.
  intros Hle s.
  destruct (after_keeps_saved_range evs (exec slideDown s0)) as [Hst Hen].
  exact (insertText_saved_range s0 s Hle Hst Hen).
Qed.

(** The drop-down of the blank editor slides open with [el] selected in
    [hello]; once the slide has ended the user types [ world], which leaves
    the caret at the end of the text box, and then chooses the item [<>]:
    it replaces [el], not the text at the caret. *)
Lemma insertText_over_captured_selection_witness :
  input (after [ETransitionEnd; EEdit (mkInput "hello world" 11 11); EChoose "<>"]
           (exec slideDown (blank [] ∅)))
  = mkInput "hello world" 11 11 /\
  input (exec insertText
           (after [ETransitionEnd; EEdit (mkInput "hello world" 11 11); EChoose "<>"]
              (exec slideDown (blank [] ∅))))
  = mkInput "h<>lo world" 3 3.
Proof.
  split; [vm_compute; reflexivity|].
  assert (Hle : in_selectionStart (input (blank [] ∅)) <= in_selectionEnd (input (blank [] ∅)))
    by (simpl; lia).
  unfold exec at 1.
  rewrite (insertText_over_captured_selection (blank [] ∅)
             [ETransitionEnd; EEdit (mkInput "hello world" 11 11); EChoose "<>"] Hle).
  vm_compute. reflexivity.
Defined.

(** ** Mode toggles *)

(** A click on a toggle never writes the transition lock, the slide style
    of the drop-down, or the listeners. *)
Lemma onModeIconClick_frame (e : Target) (s : Editor) :
  transit (exec (onModeIconClick e) s) = transit s /\
  options (exec (onModeIconClick e) s) = options s /\
  listeners (exec (onModeIconClick e) s) = listeners s /\
  modes (exec (onModeIconClick e) s) = modes s /\
  css (exec (onModeIconClick e) s) = css s.
Proof.
  unfold onModeIconClick. run. destruct e as [|i]; simpl; [done|].
  destruct (controls s !! i) as [ctrl|]; simpl; [|done].
  destruct (String.eqb (tagName ctrl) "SPAN"); simpl; [|done].
  destruct (JS.find _ (classList ctrl)) as [c|]; simpl; [|done].
  match goal with
  | |- context [setModeIconAndOptgroup ?i ?n ?st ?s1] =>
      destruct (setModeIconAndOptgroup_frame i n st s1)
        as (Hm & _ & _ & Hc & _ & Ht & Ho & Hl & _)
  end.
  unfold exec in *. rewrite Ht, Ho, Hl, Hm, Hc. done.
Qed.

(** A mode toggle does not read the transition lock either. *)
Lemma setModeIconAndOptgroup_ignores_lock ctrl nm st t s :
  setModeIconAndOptgroup ctrl nm st (with_transit t s)
  = (fst (setModeIconAndOptgroup ctrl nm st s),
     with_transit t (exec (setModeIconAndOptgroup ctrl nm st) s)).
Proof.
  unfold setModeIconAndOptgroup, JS.find, querySelector. run.
  destruct (JS.truthy st); simpl;
    destruct (List.find _ (modes s)) as [m|]; simpl;
    try (destruct (JS.truthy_str (selector m)); simpl);
    try (match goal with
         | |- context [index_where ?p ?l] => destruct (index_where p l)
         end; simpl);
    reflexivity.
Qed.

Lemma onModeIconClick_ignores_lock (e : Target) (t : Transit) (s : Editor) :
  onModeIconClick e (with_transit t s)
  = (fst (onModeIconClick e s), with_transit t (exec (onModeIconClick e) s)).
Proof.
  unfold onModeIconClick. run. destruct e as [|i]; simpl; [done|].
  destruct (controls s !! i) as [ctrl|]; simpl; [|done].
  destruct (String.eqb (tagName ctrl) "SPAN"); simpl; [|done].
  destruct (JS.find _ (classList ctrl)) as [c|]; simpl; [|done].
  match goal with
  | |- context [setModeIconAndOptgroup ?i ?n ?st (with_menuModes ?f s)] =>
      apply (setModeIconAndOptgroup_ignores_lock i n st t (with_menuModes f s))
  end.
Qed.

Lemma substring_all (s : string) : String.substring 0 (String.length s) s = s.
Proof. induction s as [|c s IH]; simpl; [done | by rewrite IH]. Qed.

Lemma substr_mode_name (n : string) :
  JS.substr (String.length TOGGLE_MODE_PREFIX) (TOGGLE_MODE_PREFIX +:+ n) = n.
Proof.
  unfold JS.substr. simpl. rewrite Nat.sub_0_r. apply substring_all.
Qed.

(** A click on the toggle of mode [n]. *)
Lemma onModeIconClick_toggle (s : Editor) (i : nat) (ctrl : Element) (n : string) :
  controls s !! i = Some ctrl ->
  tagName ctrl = "SPAN" ->
  JS.find (JS.starts_with TOGGLE_MODE_PREFIX) (classList ctrl)
    = Some (TOGGLE_MODE_PREFIX +:+ n) ->
  onModeIconClick (TChild i) s
  = setModeIconAndOptgroup i n (Some (JS.Num (JS.xor1 (JS.get (menuModes s) n))))
      (with_menuModes
         (fun mm => JS.set mm n (JS.Num (JS.xor1 (JS.get (menuModes s) n)))) s).
Proof.
  intros Hctrl Hspan Hcls. unfold onModeIconClick.
  unfold mbind at 1, Run_bind at 1, get at 1. simpl.
  rewrite Hctrl, Hspan, Hcls. simpl String.eqb. cbv iota.
  rewrite substr_mode_name. reflexivity.
Qed.

(** The flags a click leaves, whether or not the handler throws later. *)
Lemma onModeIconClick_menuModes (s : Editor) (i : nat) (ctrl : Element) (n : string) :
  controls s !! i = Some ctrl ->
  tagName ctrl = "SPAN" ->
  JS.find (JS.starts_with TOGGLE_MODE_PREFIX) (classList ctrl)
    = Some (TOGGLE_MODE_PREFIX +:+ n) ->
  menuModes (exec (onModeIconClick (TChild i)) s)
  = JS.set (menuModes s) n (JS.Num (JS.xor1 (JS.get (menuModes s) n))).
Proof.
  intros Hctrl Hspan Hcls. unfold exec.
  rewrite (onModeIconClick_toggle s i ctrl n Hctrl Hspan Hcls).
  match goal with
  | |- context [setModeIconAndOptgroup ?i ?n ?st ?s1] =>
      destruct (setModeIconAndOptgroup_frame i n st s1) as (_ & _ & Hmm & _)
  end.
  unfold exec in Hmm. rewrite Hmm. reflexivity.
Qed.

(** ** Clicks that name no mode *)

(** C4, counterexample: a click on a span whose mode is missing from
    [this.modes] raises a [TypeError], after the flag of that name has been
    written to [this.menuModes]. *)
Lemma missing_mode_click_throws :
  fst (onModeIconClick (TChild 1) stray_toggle) = Thrown (JS.TypeError "mode is undefined") /\
  menuModes stray_toggle !! "ghost" = None /\
  menuModes (exec (onModeIconClick (TChild 1)) stray_toggle) !! "ghost" = Some (JS.Num 1) /\
  ~ silent_no_op (TChild 1) stray_toggle.
Proof.
  split; [by vm_compute|]. split; [by vm_compute|]. split; [by vm_compute|].
  unfold silent_no_op. intros H. apply (f_equal fst) in H.
  vm_compute in H. discriminate H.
Qed.

(** C4, amended: a click is a silent no-op only when its target is not a
    span.  A clicked span with no class beginning with [toggle-mode-] raises
    a [TypeError], the state unchanged; a clicked span naming a mode with no
    entry in [this.modes] raises a [TypeError] after the flag of that name
    has been flipped in [this.menuModes]. *)
Theorem click_naming_no_mode (s : Editor) (i : nat) (ctrl : Element) :
  controls s !! i = Some ctrl ->
  (tagName ctrl <> "SPAN" -> onModeIconClick (TChild i) s = (Done tt, s)) /\
  (tagName ctrl = "SPAN" ->
     (JS.find (JS.starts_with TOGGLE_MODE_PREFIX) (classList ctrl) = None ->
        onModeIconClick (TChild i) s
        = (Thrown (JS.TypeError "modeClassName is undefined"), s)) /\
     (forall c,
        JS.find (JS.starts_with TOGGLE_MODE_PREFIX) (classList ctrl) = Some c ->
        JS.find (fun m => String.eqb (name m) (JS.substr 12 c)) (modes s) = None ->
        fst (onModeIconClick (TChild i) s) = Thrown (JS.TypeError "mode is undefined") /\
        menuModes (exec (onModeIconClick (TChild i)) s)
        = JS.set (menuModes s) (JS.substr 12 c)
            (JS.Num (JS.xor1 (JS.get (menuModes s) (JS.substr 12 c)))))).
Proof.
  intros Hctrl. split; [|intros Hspan; split].
  - intros Hne. unfold onModeIconClick. run. rewrite Hctrl.
    destruct (String.eqb_spec (tagName ctrl) "SPAN"); [done|reflexivity].
  - intros Hnone. unfold onModeIconClick. run. rewrite Hctrl, Hspan. simpl.
    by rewrite Hnone.
  - intros c Hc Hmode. unfold onModeIconClick.
    unfold exec, mbind at 1 3, Run_bind at 1 3, get at 1 2.
    cbv beta iota. rewrite Hctrl. cbv beta iota. rewrite Hspan.
    change (String.eqb "SPAN" "SPAN") with true. cbv beta iota.
    rewrite Hc. cbv beta iota zeta.
    change (String.length TOGGLE_MODE_PREFIX) with 12.
    unfold mbind, Run_bind, modify.
    match goal with
    | |- context [setModeIconAndOptgroup ?i ?n ?st ?s1] =>
        destruct (setModeIconAndOptgroup_frame i n st s1) as (_ & _ & Hmm & _);
        unfold exec in Hmm; rewrite Hmm;
        assert (Hthrow : fst (setModeIconAndOptgroup i n st s1)
                         = Thrown (JS.TypeError "mode is undefined"))
    end.
    { unfold setModeIconAndOptgroup. run. unfold JS.find in *. rewrite Hmode.
      match goal with |- context [negb ?x] => by destruct x end. }
    split; [exact Hthrow | reflexivity].
Qed.

Lemma click_naming_no_mode_witness :
  fst (onModeIconClick (TChild 1) stray_toggle) = Thrown (JS.TypeError "mode is undefined") /\
  menuModes (exec (onModeIconClick (TChild 1)) stray_toggle)
  = JS.set (menuModes stray_toggle) (JS.substr 12 "toggle-mode-ghost")
      (JS.Num (JS.xor1 (JS.get (menuModes stray_toggle) (JS.substr 12 "toggle-mode-ghost")))).
Proof.
  refine (proj2 (proj2 (click_naming_no_mode stray_toggle 1
            (mkElement "SPAN" ["toggle-mode-ghost"] "" "") _) _) "toggle-mode-ghost" _ _);
    vm_compute; reflexivity.
Defined.

(** ** The sum suffix of an optgroup label *)

Lemma list_ascii_of_string_app (a b : string) :
  list_ascii_of_string (a +:+ b) = list_ascii_of_string a ++ list_ascii_of_string b.
Proof. induction a as [|c a IH]; simpl; [reflexivity | by rewrite IH]. Qed.

Lemma string_of_list_ascii_app (a b : list ascii) :
  string_of_list_ascii (a ++ b) = string_of_list_ascii a +:+ string_of_list_ascii b.
Proof. induction a as [|c a IH]; simpl; [done | by rewrite IH]. Qed.

Lemma string_append_assoc (a b c : string) : (a +:+ b) +:+ c = a +:+ b +:+ c.
Proof.
  induction a as [|x a IH]; [done|].
  change (String x ((a +:+ b) +:+ c) = String x (a +:+ b +:+ c)). by f_equal.
Qed.

Lemma string_append_length (a b : string) :
  String.length (a +:+ b) = String.length a + String.length b.
Proof.
  induction a as [|x a IH]; [done|].
  change (S (String.length (a +:+ b)) = S (String.length a + String.length b)).
  by rewrite IH.
Qed.

Lemma span_digits_run (ds : list ascii) (c : ascii) (rest : list ascii) :
  Forall (fun d => JS.is_digit d = true) ds ->
  JS.is_digit c = false ->
  JS.span_digits (ds ++ c :: rest) = (ds, c :: rest).
Proof.
  intros Hds Hc. induction Hds as [|d ds Hd _ IH]; simpl.
  - by rewrite Hc.
  - by rewrite Hd, IH.
Qed.

Lemma span_digits_spec (l : list ascii) :
  l = fst (JS.span_digits l) ++ snd (JS.span_digits l).
Proof.
  induction l as [|c l IH]; simpl; [done|].
  destruct (JS.is_digit c); [|done].
  destruct (JS.span_digits l) as [ds rest]. simpl in *. by rewrite <- IH.
Qed.

Lemma span_digits_digits (l : list ascii) :
  Forall (fun c => JS.is_digit c = true) (fst (JS.span_digits l)).
Proof.
  induction l as [|c l IH]; simpl; [constructor|].
  destruct (JS.is_digit c) eqn:Hc; [|constructor].
  destruct (JS.span_digits l) as [ds rest]. simpl in *. by constructor.
Qed.

Lemma string_of_uint_digits (u : Decimal.uint) :
  Forall (fun d => JS.is_digit d = true) (list_ascii_of_string (NilEmpty.string_of_uint u)).
Proof. induction u; simpl; constructor; auto. Qed.

Lemma succ_nonnil (u : Decimal.uint) : Decimal.Little.succ u <> Decimal.Nil.
Proof. destruct u; discriminate. Qed.

Lemma to_little_uint_nonnil (n : nat) (acc : Decimal.uint) :
  acc <> Decimal.Nil -> Nat.to_little_uint n acc <> Decimal.Nil.
Proof.
  revert acc. induction n as [|n IH]; intros acc Hacc; simpl; [exact Hacc|].
  apply IH, succ_nonnil.
Qed.

Lemma of_nat_digits (n : nat) :
  Forall (fun d => JS.is_digit d = true) (list_ascii_of_string (JS.of_nat n)) /\
  list_ascii_of_string (JS.of_nat n) <> [].
Proof.
  split; [apply string_of_uint_digits|].
  unfold JS.of_nat, Nat.to_uint.
  pose proof (to_little_uint_nonnil n Decimal.zero) as Hn.
  destruct (Decimal.rev (Nat.to_little_uint n Decimal.zero)) eqn:Hr; try discriminate.
  apply DecimalFacts.rev_nil_inv in Hr. exfalso. apply Hn; [discriminate | exact Hr].
Qed.

Lemma of_nat_nonempty (n : nat) : JS.of_nat n <> "".
Proof.
  intros H. destruct (of_nat_digits n) as [_ Hne]. apply Hne. by rewrite H.
Qed.

(** Stripping removes a final sum. *)
Lemma strip_sum_digits (base ds : string) :
  ds <> "" ->
  Forall (fun c => JS.is_digit c = true) (list_ascii_of_string ds) ->
  JS.strip_sum (base +:+ " (" +:+ ds +:+ ")") = base.
Proof.
  intros Hne Hd. unfold JS.strip_sum.
  rewrite !list_ascii_of_string_app. simpl list_ascii_of_string at 2 4.
  assert (Hl : list_ascii_of_string ds <> []).
  { intros H. apply Hne. rewrite <- (string_of_list_ascii_of_string ds). by rewrite H. }
  set (l := list_ascii_of_string ds) in *.
  rewrite !rev_app_distr. simpl.
  rewrite <- app_assoc. simpl.
  rewrite span_digits_run; [| by apply Forall_rev | reflexivity].
  destruct (rev l) eqn:Hrev.
  - exfalso. apply Hl. apply (f_equal (@rev ascii)) in Hrev.
    by rewrite rev_involutive in Hrev.
  - rewrite rev_involutive. apply string_of_list_ascii_of_string.
Qed.

(** Stripping undoes the appending of a sum. *)
Lemma strip_sum_appended (base : string) (n : nat) :
  JS.strip_sum (base +:+ " (" +:+ JS.of_nat n +:+ ")") = base.
Proof.
  apply strip_sum_digits; [apply of_nat_nonempty | apply of_nat_digits].
Qed.

Ltac other_char c H :=
  destruct c as [? ? ? ? ? ? ? ?];
  repeat match goal with
         | |- context [if ?b then _ else _] => is_var b; destruct b; try reflexivity
         end;
  by destruct H.

(** Stripping removes nothing but a final sum. *)
Lemma strip_sum_cases (l : string) :
  JS.strip_sum l = l \/
  exists ds,
    ds <> "" /\
    Forall (fun c => JS.is_digit c = true) (list_ascii_of_string ds) /\
    l = JS.strip_sum l +:+ " (" +:+ ds +:+ ")".
Proof.
  unfold JS.strip_sum.
  destruct (rev (list_ascii_of_string l)) as [|c r] eqn:Hrev; [by left|].
  destruct (Ascii.eqb_spec c ")"%char) as [->|Hc].
  - pose proof (span_digits_spec r) as Hr.
    pose proof (span_digits_digits r) as Hd.
    destruct (JS.span_digits r) as [ds rest]. simpl in Hr, Hd.
    destruct ds as [|d ds]; [by left|].
    destruct rest as [|c1 rest]; [by left|].
    destruct (Ascii.eqb_spec c1 "("%char) as [->|Hc1].
    + destruct rest as [|c2 rest]; [by left|].
      destruct (Ascii.eqb_spec c2 " "%char) as [->|Hc2].
      * right. exists (string_of_list_ascii (rev (d :: ds))). split; [|split].
        { intros H. apply (f_equal list_ascii_of_string) in H.
          rewrite list_ascii_of_string_of_list_ascii in H. simpl in H.
          by destruct (rev ds). }
        { rewrite list_ascii_of_string_of_list_ascii. by apply Forall_rev. }
        rewrite <- (string_of_list_ascii_of_string l) at 1.
        rewrite <- (rev_involutive (list_ascii_of_string l)), Hrev, Hr.
        simpl. rewrite !rev_app_distr. simpl.
        rewrite !string_of_list_ascii_app. simpl.
        by rewrite !string_append_assoc.
      * left. other_char c2 Hc2.
    + left. other_char c1 Hc1.
  - left. other_char c Hc.
Qed.

(** A label without a final sum is left as it is. *)
Lemma strip_sum_no_final_sum (l : string) : no_final_sum l -> JS.strip_sum l = l.
Proof.
  intros Hno. destruct (strip_sum_cases l) as [H|(ds & Hne & Hd & Hl)]; [exact H|].
  exfalso. exact (Hno (JS.strip_sum l) ds Hne Hd Hl).
Qed.

(** Stripping gives back the text of a label. *)
Lemma sum_label_strip (base l : string) : sum_label base l -> JS.strip_sum l = base.
Proof.
  intros [Hno|ds Hne Hd]; [by apply strip_sum_no_final_sum | by apply strip_sum_digits].
Qed.

(** Every label is a text, bare or followed by one sum: its text is what
    stripping leaves. *)
Lemma sum_label_total (l : string) : sum_label (JS.strip_sum l) l.
Proof.
  destruct (strip_sum_cases l) as [H|(ds & Hne & Hd & Hl)].
  - rewrite H. apply without_sum. intros base ds Hne Hd Hl.
    rewrite Hl, strip_sum_digits in H by done.
    apply (f_equal String.length) in H. rewrite !string_append_length in H.
    simpl in H. lia.
  - rewrite Hl at 2. by apply with_sum.
Qed.

(** ** Finding and marking the option group of a mode *)

Lemma index_where_Some {A} (p : A -> bool) (l : list A) (i : nat) :
  index_where p l = Some i -> exists x, l !! i = Some x /\ p x = true.
Proof.
  revert i. induction l as [|x r IH]; intros i; simpl; [done|].
  destruct (p x) eqn:Hp.
  - intros [= <-]. by exists x.
  - destruct (index_where p r) as [j|]; simpl; [|done].
    intros [= <-]. by apply IH.
Qed.

Lemma index_where_None {A} (p : A -> bool) (l : list A) :
  index_where p l = None -> forall x, x ∈ l -> p x = false.
Proof.
  induction l as [|y r IH]; simpl; intros H x Hx.
  - by apply not_elem_of_nil in Hx.
  - destruct (p y) eqn:Hp; [done|].
    destruct (index_where p r) eqn:Hr; [done|].
    apply elem_of_cons in Hx as [->|Hx]; [done | by apply IH].
Qed.

Lemma index_where_fmap {A} (p : A -> bool) (l : list A) :
  index_where p l = index_where (fun b : bool => b) (p <$> l).
Proof.
  induction l as [|x r IH]; simpl; [done|]. by rewrite IH.
Qed.

Lemma selected_set_child_display css sel d c :
  selected css sel (set_child_display d c) = selected css sel c.
Proof. by destruct c. Qed.

Lemma selected_rebuild_group css sel m c :
  selected css sel (rebuild_group m c) = selected css sel c.
Proof.
  destruct c as [o|g]; simpl; [done|].
  by destruct (appendOptions m (map o_value (og_options g))).
Qed.

Lemma selected_each_display css sel sel' d (l : list Child) :
  selected css sel <$> each_display css sel' d l = selected css sel <$> l.
Proof.
  unfold each_display. rewrite <- list_fmap_compose. apply list_fmap_ext.
  intros i c _. simpl. destruct (selected css sel' c); [|done].
  apply selected_set_child_display.
Qed.

Lemma selected_alter_rebuild css sel m i (l : list Child) :
  selected css sel <$> alter (rebuild_group m) i l = selected css sel <$> l.
Proof.
  rewrite (list_fmap_alter _ _ id).
  - by apply list_alter_id.
  - apply Forall_forall. intros c _. apply selected_rebuild_group.
Qed.

(** With a truthy selector the mode's own selector is the one used. *)
Lemma selected_truthy css sel c :
  JS.truthy_str sel = true ->
  selected css (Some (default "" sel)) c = selected css sel c.
Proof.
  intros H. unfold selected. rewrite H.
  destruct sel as [x|]; [|done]. simpl in *. by rewrite H.
Qed.

(** One call of [setModeIconAndOptgroup] for a mode with a selector whose
    optgroup is the [i]-th child of the list. *)
Lemma setModeIconAndOptgroup_label ctrl nm st s m i g :
  JS.find (fun m' => String.eqb (name m') nm) (modes s) = Some m ->
  JS.truthy_str (selector m) = true ->
  querySelector s (default "" (selector m)) = Some i ->
  children (dropdown s) !! i = Some (Grp g) ->
  let s' := exec (setModeIconAndOptgroup ctrl nm st) s in
  modes s' = modes s /\
  querySelector s' (default "" (selector m)) = Some i /\
  exists g',
    children (dropdown s') !! i = Some (Grp g') /\
    og_label g' =
      if JS.truthy st
      then JS.strip_sum (og_label g) +:+ " (" +:+
           JS.of_nat (snd (appendOptions m (map o_value (og_options g)))) +:+ ")"
      else og_label g.
Proof.
  intros Hfind Hsel Hq Hg s'.
  destruct (setModeIconAndOptgroup_frame ctrl nm st s) as (Hmodes & _ & _ & Hcss & _).
  fold s' in Hmodes, Hcss. split; [exact Hmodes|].
  assert (Hch : children (dropdown s') =
                each_display (css s) (selector m) (if JS.truthy st then "" else "none")
                  (if JS.truthy st
                   then alter (rebuild_group m) i (children (dropdown s))
                   else children (dropdown s))).
  { subst s'. unfold setModeIconAndOptgroup. run. unfold JS.find in *.
    rewrite Hfind. destruct (JS.truthy st); simpl; [|reflexivity].
    rewrite Hsel. simpl.
    rewrite Hq. reflexivity. }
  split.
  - unfold querySelector in *. rewrite Hcss, Hch.
    rewrite index_where_fmap, selected_each_display.
    destruct (JS.truthy st); [rewrite selected_alter_rebuild|];
      by rewrite <- index_where_fmap.
  - rewrite Hch. unfold each_display. rewrite list_lookup_fmap.
    destruct (JS.truthy st).
    + rewrite list_lookup_alter_eq, Hg. simpl.
      destruct (appendOptions m (map o_value (og_options g))) as [new sum]. simpl.
      match goal with
      | |- context [if ?b then _ else _] => destruct b
      end; eexists; split; reflexivity.
    + rewrite Hg. simpl.
      match goal with
      | |- context [if ?b then _ else _] => destruct b
      end; eexists; split; reflexivity.
Qed.

(** Any history of enabling and disabling the mode keeps its optgroup in
    place, and the label stays its text, bare or followed by one sum. *)
Lemma history_keeps_label_text ctrl nm m i (base : string)
    (history : list (option JS.Value)) :
  forall s g,
  JS.find (fun m' => String.eqb (name m') nm) (modes s) = Some m ->
  JS.truthy_str (selector m) = true ->
  querySelector s (default "" (selector m)) = Some i ->
  children (dropdown s) !! i = Some (Grp g) ->
  sum_label base (og_label g) ->
  let s' := foldl (fun acc st => exec (setModeIconAndOptgroup ctrl nm st) acc) s history in
  JS.find (fun m' => String.eqb (name m') nm) (modes s') = Some m /\
  querySelector s' (default "" (selector m)) = Some i /\
  exists g',
    children (dropdown s') !! i = Some (Grp g') /\
    sum_label base (og_label g').
Proof.
  induction history as [|st rest IH]; intros s g Hfind Hsel Hq Hg Hbase; simpl.
  - split; [done|]. split; [done|]. by exists g.
  - destruct (setModeIconAndOptgroup_label ctrl nm st s m i g Hfind Hsel Hq Hg)
      as (Hmodes & Hq1 & g1 & Hg1 & Hlabel).
    assert (Hfind1 : JS.find (fun m' => String.eqb (name m') nm)
                       (modes (exec (setModeIconAndOptgroup ctrl nm st) s)) = Some m)
      by (by rewrite Hmodes).
    apply (IH _ g1 Hfind1 Hsel Hq1 Hg1).
    rewrite Hlabel. destruct (JS.truthy st); [|exact Hbase].
    rewrite (sum_label_strip base _ Hbase).
    apply with_sum; [apply of_nat_nonempty | apply of_nat_digits].
Qed.

(** C9: each time a mode with a selector is enabled, the label of its
    optgroup first loses the sum appended before and then gets the new one.
    Let the label be the text [base], bare or followed by one sum: after any
    history of enabling and disabling it is still [base], bare or followed
    by one sum, and enabling the mode leaves it as [base] followed by
    exactly one sum, the one [appendOptions] just returned. *)
Theorem optgroup_label_carries_one_sum
    (s : Editor) (ctrl : nat) (nm : string) (m : Mode) (i : nat) (g : Optgroup)
    (base : string) (history : list (option JS.Value)) (st : option JS.Value) :
  JS.find (fun m' => String.eqb (name m') nm) (modes s) = Some m ->
  JS.truthy_str (selector m) = true ->
  querySelector s (default "" (selector m)) = Some i ->
  children (dropdown s) !! i = Some (Grp g) ->
  sum_label base (og_label g) ->
  JS.truthy st = true ->
  let before := foldl (fun acc x => exec (setModeIconAndOptgroup ctrl nm x) acc) s history in
  let after := exec (setModeIconAndOptgroup ctrl nm st) before in
  exists g0 g',
    children (dropdown before) !! i = Some (Grp g0) /\
    children (dropdown after) !! i = Some (Grp g') /\
    sum_label base (og_label g0) /\
    og_label g' =
      base +:+ " (" +:+
      JS.of_nat (snd (appendOptions m (map o_value (og_options g0)))) +:+ ")".
Proof.
  intros Hfind Hsel Hq Hg Hbase Hst before after.
  destruct (history_keeps_label_text ctrl nm m i base history s g Hfind Hsel Hq Hg Hbase)
    as (Hf & Hq0 & g0 & Hg0 & Hbase0).
  fold before in Hf, Hq0, Hg0.
  destruct (setModeIconAndOptgroup_label ctrl nm st before m i g0 Hf Hsel Hq0 Hg0)
    as (_ & _ & g' & Hg' & Hlabel).
  fold after in Hg'. rewrite Hst in Hlabel.
  exists g0, g'. split; [exact Hg0|]. split; [exact Hg'|]. split; [exact Hbase0|].
  by rewrite Hlabel, (sum_label_strip base _ Hbase0).
Qed.

(** The labels of the sample mode: enabled by [showEditor], then disabled
    and enabled again. *)
Example sample_labels :
  (fun c => match c with Grp g => og_label g | Opt _ => "" end)
    <$> children (dropdown shown) = ["Distinct values (3)"] /\
  (fun c => match c with Grp g => og_label g | Opt _ => "" end)
    <$> children (dropdown
          (exec (setModeIconAndOptgroup 0 "distinctValues" (Some (JS.Num 1)))
             (exec (setModeIconAndOptgroup 0 "distinctValues" None) shown)))
    = ["Distinct values (6)"].
Proof. split; vm_compute; reflexivity. Qed.

(** The sample mode enabled by [showEditor], which leaves the label
    [Distinct values (3)], then disabled and enabled again. *)
Lemma optgroup_label_carries_one_sum_witness :
  exists g0 g',
    children (dropdown
      (foldl (fun acc x => exec (setModeIconAndOptgroup 0 "distinctValues" x) acc)
         shown [None])) !! 0 = Some (Grp g0) /\
    children (dropdown
      (exec (setModeIconAndOptgroup 0 "distinctValues" (Some (JS.Num 1)))
         (foldl (fun acc x => exec (setModeIconAndOptgroup 0 "distinctValues" x) acc)
            shown [None]))) !! 0 = Some (Grp g') /\
    sum_label "Distinct values" (og_label g0) /\
    og_label g' =
      "Distinct values" +:+ " (" +:+
      JS.of_nat (snd (appendOptions distinctValues (map o_value (og_options g0)))) +:+ ")".
Proof.
  apply (optgroup_label_carries_one_sum shown 0 "distinctValues" distinctValues 0
           (mkOptgroup "Distinct values (3)" (Some "submenu-distinctValues") "#eef" ""
              (fresh_options ["a"; "b"; "c"]))
           "Distinct values" [None] (Some (JS.Num 1)));
    [ vm_compute; reflexivity | vm_compute; reflexivity | vm_compute; reflexivity
    | vm_compute; reflexivity | | vm_compute; reflexivity ].
  apply (with_sum "Distinct values" "3"); [discriminate | repeat constructor].
Defined.

(** ** Toggling a mode twice *)

Lemma each_display_all css sel d (l : list Child) (c : Child) :
  c ∈ each_display css sel d l -> selected css sel c = true -> child_display c = d.
Proof.
  unfold each_display. rewrite list_elem_of_fmap. intros (c0 & -> & _).
  destruct (selected css sel c0) eqn:Hsel.
  - intros _. by destruct c0.
  - by rewrite Hsel.
Qed.

(** Whatever the list looked like, a call of [setModeIconAndOptgroup] for a
    mode of [this.modes] leaves the elements its selector matches with the
    display of the state it was given. *)
Lemma setModeIconAndOptgroup_all_display ctrl nm st s m :
  JS.find (fun m' => String.eqb (name m') nm) (modes s) = Some m ->
  all_display (display_of st) (exec (setModeIconAndOptgroup ctrl nm st) s) m.
Proof.
  intros Hfind c.
  destruct (setModeIconAndOptgroup_frame ctrl nm st s) as (_ & _ & _ & Hcss & _).
  rewrite Hcss. clear Hcss.
  unfold setModeIconAndOptgroup, display_of. run. unfold JS.find in *. rewrite Hfind.
  destruct (JS.truthy st); simpl.
  - destruct (JS.truthy_str (selector m)) eqn:Hsel; simpl.
    + destruct (querySelector s (default "" (selector m))) as [i|] eqn:Hq; simpl.
      * apply each_display_all.
      * intros Hc Hm. rewrite <- selected_truthy in Hm by done.
        by rewrite (index_where_None _ _ Hq c Hc) in Hm.
    + apply each_display_all.
  - apply each_display_all.
Qed.

Lemma setModeIconAndOptgroup_controls ctrl nm st s :
  controls (exec (setModeIconAndOptgroup ctrl nm st) s)
  = alter (classList_toggle "active" (JS.truthy st)) ctrl (controls s).
Proof.
  unfold setModeIconAndOptgroup, JS.find. run.
  destruct (JS.truthy st); simpl;
    destruct (List.find _ (modes s)) as [m|]; simpl;
    try (destruct (JS.truthy_str (selector m)); simpl);
    try (destruct (querySelector _ _); simpl);
    reflexivity.
Qed.

Lemma find_app_miss {A} (p : A -> bool) (l : list A) (x : A) :
  p x = false -> List.find p (l ++ [x]) = List.find p l.
Proof.
  intros Hx. induction l as [|y r IH]; simpl; [by rewrite Hx|].
  by destruct (p y).
Qed.

Lemma find_filter_keep {A} (p q : A -> bool) (l : list A) :
  (forall x, p x = true -> q x = true) ->
  List.find p (List.filter q l) = List.find p l.
Proof.
  intros Hpq. induction l as [|y r IH]; simpl; [done|].
  destruct (q y) eqn:Hq; simpl.
  - by destruct (p y).
  - destruct (p y) eqn:Hp; [|done]. apply Hpq in Hp. congruence.
Qed.

(** Marking a toggle active or not does not change the mode it names. *)
Lemma classList_toggle_mode_class (b : bool) (e : Element) :
  JS.find (JS.starts_with TOGGLE_MODE_PREFIX) (classList (classList_toggle "active" b e))
  = JS.find (JS.starts_with TOGGLE_MODE_PREFIX) (classList e).
Proof.
  unfold JS.find, classList_toggle. cbn [classList]. destruct b.
  - destruct (existsb _ (classList e)); [done|]. by apply find_app_miss.
  - apply find_filter_keep. intros x Hx.
    destruct (String.eqb_spec "active" x) as [<-|]; [discriminate Hx | done].
Qed.

Lemma lxor_1 (v : Z) : Z.lxor v 1 = if Z.even v then (v + 1)%Z else (v - 1)%Z.
Proof.
  destruct v as [|p|p]; [reflexivity| |].
  - destruct p; simpl; reflexivity.
  - destruct p; simpl; try reflexivity.
    destruct p; simpl; reflexivity.
Qed.

Lemma toInt32_id (z : Z) :
  (-2147483648 <= z < 2147483648)%Z -> JS.toInt32 z = z.
Proof. intros H. unfold JS.toInt32. rewrite Z.mod_small by lia. lia. Qed.

Lemma lxor_1_int32 (z : Z) :
  (-2147483648 <= z < 2147483648)%Z -> (-2147483648 <= Z.lxor z 1 < 2147483648)%Z.
Proof.
  intros H. rewrite lxor_1. destruct (Z.even z) eqn:E.
  - assert (z <> 2147483647%Z) by (intros ->; discriminate). lia.
  - assert (z <> (-2147483648)%Z) by (intros ->; discriminate). lia.
Qed.

(** [x ^= 1] twice gives back a 32-bit flag. *)
Lemma xor1_twice (v : Z) :
  (-2147483648 <= v < 2147483648)%Z ->
  JS.xor1 (Some (JS.Num (JS.xor1 (Some (JS.Num v))))) = v.
Proof.
  intros H. unfold JS.xor1. simpl.
  rewrite (toInt32_id v H), (toInt32_id _ (lxor_1_int32 v H)).
  rewrite Z.lxor_assoc. simpl. apply Z.lxor_0_r.
Qed.

(** C2, counterexample: [showEditor] shows the group for [x] and then hides
    it for [y]; toggling [x] twice leaves it shown. *)
Lemma toggle_twice_changes_shared_group :
  menuModes shared_group !! "x" = Some (JS.Num 1) /\
  ~ toggle_twice_restores shared_group 0 mode_x.
Proof.
  split; [by vm_compute|]. intros H. specialize (H "none").
  assert (Hbefore : all_display "none" shared_group mode_x).
  { intros c Hc _. vm_compute in Hc. apply list_elem_of_singleton in Hc. by subst c. }
  specialize (H Hbefore
                (Grp (mkOptgroup "X (0)" (Some "submenu-x") "" "" []))).
  assert (Hshown : child_display (Grp (mkOptgroup "X (0)" (Some "submenu-x") "" "" []))
                   = "none"); [|discriminate Hshown].
  apply H.
  - vm_compute. apply list_elem_of_here.
  - by vm_compute.
Qed.

(** C2, amended: for a mode of [this.modes] whose flag in [this.menuModes]
    is a 32-bit integer, two clicks on its toggle give the flag back and
    leave every element matched by the mode's selector with the display that
    flag stands for: the display they had before the first click whenever
    that was the one set for this mode's flag. *)
Theorem toggle_twice_restores_flag_display
    (s : Editor) (i : nat) (ctrl : Element) (n : string) (m : Mode) (v : Z) :
  controls s !! i = Some ctrl ->
  tagName ctrl = "SPAN" ->
  JS.find (JS.starts_with TOGGLE_MODE_PREFIX) (classList ctrl)
    = Some (TOGGLE_MODE_PREFIX +:+ n) ->
  JS.find (fun m' => String.eqb (name m') n) (modes s) = Some m ->
  menuModes s !! n = Some (JS.Num v) ->
  (-2147483648 <= v < 2147483648)%Z ->
  menuModes (exec (onModeIconClick (TChild i)) (exec (onModeIconClick (TChild i)) s)) !! n
    = Some (JS.Num v) /\
  all_display (display_of (Some (JS.Num v)))
    (exec (onModeIconClick (TChild i)) (exec (onModeIconClick (TChild i)) s)) m.
Proof.
  intros Hctrl Hspan Hcls Hmode Hflag Hint.
  set (v1 := JS.Num (JS.xor1 (Some (JS.Num v)))).
  set (s1 := exec (onModeIconClick (TChild i)) s).
  assert (Hs1 : s1 = exec (setModeIconAndOptgroup i n (Some v1))
                       (with_menuModes (fun mm => JS.set mm n v1) s)).
  { subst s1 v1. unfold exec. rewrite (onModeIconClick_toggle s i ctrl n Hctrl Hspan Hcls).
    by rewrite (get_own _ _ _ Hflag). }
  destruct (setModeIconAndOptgroup_frame i n (Some v1)
              (with_menuModes (fun mm => JS.set mm n v1) s))
    as (Hmodes1 & _ & Hmm1 & _).
  rewrite <- Hs1 in Hmodes1, Hmm1. simpl in Hmodes1, Hmm1.
  assert (Hctrl1 : controls s1 !! i
                   = Some (classList_toggle "active" (JS.truthy (Some v1)) ctrl)).
  { rewrite Hs1, setModeIconAndOptgroup_controls. simpl controls.
    by rewrite list_lookup_alter_eq, Hctrl. }
  assert (Hflag1 : menuModes s1 !! n = Some v1)
    by (by rewrite Hmm1, (set_own _ _ _ _ Hflag), lookup_insert_eq).
  assert (Hmode1 : JS.find (fun m' => String.eqb (name m') n) (modes s1) = Some m)
    by (by rewrite Hmodes1).
  assert (Hs2 : exec (onModeIconClick (TChild i)) s1
                = exec (setModeIconAndOptgroup i n (Some (JS.Num v)))
                    (with_menuModes (fun mm => JS.set mm n (JS.Num v)) s1)).
  { unfold exec.
    rewrite (onModeIconClick_toggle s1 i _ n Hctrl1 Hspan).
    - rewrite (get_own _ _ _ Hflag1). subst v1. by rewrite (xor1_twice v Hint).
    - by rewrite classList_toggle_mode_class. }
  rewrite Hs2. split.
  - destruct (setModeIconAndOptgroup_frame i n (Some (JS.Num v))
                (with_menuModes (fun mm => JS.set mm n (JS.Num v)) s1))
      as (_ & _ & Hmm2 & _).
    rewrite Hmm2. simpl. rewrite (set_own _ _ _ _ Hflag1). apply lookup_insert_eq.
  - apply setModeIconAndOptgroup_all_display. exact Hmode1.
Qed.

Lemma toggle_twice_restores_flag_display_witness :
  menuModes (exec (onModeIconClick (TChild 0)) (exec (onModeIconClick (TChild 0)) shown))
    !! "distinctValues" = Some (JS.Num 1) /\
  all_display (display_of (Some (JS.Num 1)))
    (exec (onModeIconClick (TChild 0)) (exec (onModeIconClick (TChild 0)) shown))
    distinctValues.
Proof.
  apply (toggle_twice_restores_flag_display shown 0
           (mkElement "SPAN" ["toggle-mode-distinctValues"; "active"]
              "Toggle distinct values" "D")
           "distinctValues" distinctValues 1%Z);
    first [ by vm_compute | lia ].
Defined.

(** ** A mode toggle and the transition lock *)

(** C5, counterexample: a click on the toggle of the sample mode flips the
    mode and hides its option group at once, and no transition is started. *)
Lemma mode_toggle_is_immediate :
  menuModes (exec (onModeIconClick (TChild 0)) shown) !! "distinctValues"
    = Some (JS.Num 0) /\
  map child_display (children (dropdown (exec (onModeIconClick (TChild 0)) shown))) = ["none"] /\
  ~ mode_toggle_starts_transition shown 0.
Proof.
  split; [by vm_compute|]. split; [by vm_compute|].
  unfold mode_toggle_starts_transition. vm_compute. discriminate.
Qed.

(** C5, amended: a mode toggle is synchronous.  A click on the toggle of a
    mode of [this.modes] writes the flipped flag to [this.menuModes] and
    leaves every element matched by the mode's selector with the display
    the new flag stands for, all within the handler.  No click in the
    control area takes or consults the transition lock or touches the slide
    style of the drop-down: whatever the lock holds, the click has the same
    outcome.  The transition-completion signal coordinates the open/close
    toggle of the drop-down only: it changes neither the flags, nor the
    toggles, nor the items of the list. *)
Theorem mode_toggle_is_synchronous
    (s : Editor) (i : nat) (ctrl : Element) (n : string) (m : Mode) :
  controls s !! i = Some ctrl ->
  tagName ctrl = "SPAN" ->
  JS.find (JS.starts_with TOGGLE_MODE_PREFIX) (classList ctrl)
    = Some (TOGGLE_MODE_PREFIX +:+ n) ->
  JS.find (fun m' => String.eqb (name m') n) (modes s) = Some m ->
  menuModes (exec (onModeIconClick (TChild i)) s)
    = JS.set (menuModes s) n (JS.Num (JS.xor1 (JS.get (menuModes s) n))) /\
  all_display (display_of (Some (JS.Num (JS.xor1 (JS.get (menuModes s) n)))))
    (exec (onModeIconClick (TChild i)) s) m /\
  (forall e : Target,
     transit (exec (onModeIconClick e) s) = transit s /\
     options (exec (onModeIconClick e) s) = options s /\
     forall t : Transit,
       onModeIconClick e (with_transit t s)
       = (fst (onModeIconClick e s), with_transit t (exec (onModeIconClick e) s))) /\
  menuModes (exec transitionEnd s) = menuModes s /\
  controls (exec transitionEnd s) = controls s /\
  children (dropdown (exec transitionEnd s)) = children (dropdown s).
Proof.
  intros Hctrl Hspan Hcls Hmode. split; [|split; [|split]].
  - exact (onModeIconClick_menuModes s i ctrl n Hctrl Hspan Hcls).
  - unfold exec. rewrite (onModeIconClick_toggle s i ctrl n Hctrl Hspan Hcls).
    apply setModeIconAndOptgroup_all_display. exact Hmode.
  - intros e. destruct (onModeIconClick_frame e s) as (Ht & Ho & _).
    split; [exact Ht|]. split; [exact Ho|]. intros t.
    apply onModeIconClick_ignores_lock.
  - unfold transitionEnd. run. destruct (inProgress (transit s)); simpl; [|done].
    by destruct (atEnd (transit s)) as [[]|].
Qed.

(** A click on the toggle of the sample mode, enabled until then. *)
Lemma mode_toggle_is_synchronous_witness :
  menuModes (exec (onModeIconClick (TChild 0)) shown)
    = JS.set (menuModes shown) "distinctValues"
        (JS.Num (JS.xor1 (JS.get (menuModes shown) "distinctValues"))) /\
  all_display
    (display_of (Some (JS.Num (JS.xor1 (JS.get (menuModes shown) "distinctValues")))))
    (exec (onModeIconClick (TChild 0)) shown) distinctValues /\
  (forall e : Target,
     transit (exec (onModeIconClick e) shown) = transit shown /\
     options (exec (onModeIconClick e) shown) = options shown /\
     forall t : Transit,
       onModeIconClick e (with_transit t shown)
       = (fst (onModeIconClick e shown), with_transit t (exec (onModeIconClick e) shown))) /\
  menuModes (exec transitionEnd shown) = menuModes shown /\
  controls (exec transitionEnd shown) = controls shown /\
  children (dropdown (exec transitionEnd shown)) = children (dropdown shown).
Proof.
  apply (mode_toggle_is_synchronous shown 0
           (mkElement "SPAN" ["toggle-mode-distinctValues"; "active"]
              "Toggle distinct values" "D")
           "distinctValues" distinctValues);
    vm_compute; reflexivity.
Defined.

(** * Further properties of the code *)

(** ** Steps of the editor *)

Lemma advances_refl (s : Editor) : advances s s.
Proof.
  split; [by repeat split|]. split; [by left|]. split; [lia|]. intros l Hl. by left.
Qed.

Lemma advances_trans (s1 s2 s3 : Editor) :
  advances s1 s2 -> advances s2 s3 -> advances s1 s3.
Proof.
  intros (C1 & V1 & N1 & L1) (C2 & V2 & N2 & L2).
  split; [|split; [|split]].
  - unfold same_config in *.
    repeat match goal with H : _ /\ _ |- _ => destruct H end.
    repeat split; congruence.
  - destruct V2 as [V2|V2]; [|by right]. rewrite V2. exact V1.
  - lia.
  - intros l Hl. destruct (L2 l Hl) as [Hin|Hid]; [|right; lia].
    destruct (L1 l Hin) as [Hin1|Hid1]; [by left | right; lia].
Qed.

(** A step that leaves the visibility, the listeners and the configuration
    alone. *)
Lemma advances_quiet (s s' : Editor) :
  same_config s s' -> visibility (options s') = visibility (options s) ->
  listeners s' = listeners s -> nextFn s' = nextFn s -> advances s s'.
Proof.
  intros Hc Ho Hl Hn. split; [exact Hc|]. split; [by left|].
  split; [lia|]. intros l Hin. left. by rewrite <- Hl.
Qed.

Lemma setModeIconAndOptgroup_editorPointY ctrl nm st s :
  editorPointY (exec (setModeIconAndOptgroup ctrl nm st) s) = editorPointY s.
Proof.
  unfold setModeIconAndOptgroup, JS.find. run.
  destruct (JS.truthy st); simpl;
    destruct (List.find _ (modes s)) as [m|]; simpl;
    try (destruct (JS.truthy_str (selector m)); simpl);
    try (destruct (querySelector _ _); simpl);
    reflexivity.
Qed.

Lemma setModeIconAndOptgroup_advances ctrl nm st s :
  advances s (exec (setModeIconAndOptgroup ctrl nm st) s).
Proof.
  destruct (setModeIconAndOptgroup_frame ctrl nm st s)
    as (Hm & Hsrc & _ & Hcss & Hg & _ & Ho & Hl & _ & _ & _ & _ & Hn & _).
  apply advances_quiet; try done; [|by rewrite Ho].
  repeat split; try done. apply setModeIconAndOptgroup_editorPointY.
Qed.

Lemma onModeIconClick_advances (t : Target) (s : Editor) :
  advances s (exec (onModeIconClick t) s).
Proof.
  unfold onModeIconClick. run. destruct t as [|i]; simpl; [apply advances_refl|].
  destruct (controls s !! i) as [ctrl|]; simpl; [|apply advances_refl].
  destruct (String.eqb (tagName ctrl) "SPAN"); simpl; [|apply advances_refl].
  destruct (JS.find _ (classList ctrl)) as [c|]; simpl; [|apply advances_refl].
  match goal with
  | |- advances ?s0 (snd (setModeIconAndOptgroup ?i ?n ?st ?s1)) =>
      apply (advances_trans s0 s1);
        [by apply advances_quiet | apply (setModeIconAndOptgroup_advances i n st s1)]
  end.
Qed.

Lemma add_listener_advances n ty f (s : Editor) : advances s (add_listener n ty f s).
Proof.
  split; [by repeat split|]. split; [by left|]. simpl. split; [lia|].
  intros l Hl. apply elem_of_app in Hl as [Hl|Hl]; [by left|].
  apply list_elem_of_singleton in Hl. subst l. simpl. right. lia.
Qed.

Lemma remove_listener_advances n ty f (s : Editor) : advances s (remove_listener n ty f s).
Proof.
  destruct f as [id|]; [|apply advances_refl]. simpl.
  split; [by repeat split|]. split; [by left|]. simpl. split; [lia|].
  intros l Hl. left. apply list_elem_of_In in Hl. apply filter_In in Hl as [Hl _].
  by apply list_elem_of_In.
Qed.

Lemma slideDown_advances (s : Editor) : advances s (exec slideDown s).
Proof.
  unfold slideDown. run.
  split; [by repeat split|]. split; [by right; right|]. simpl. split; [lia|].
  intros l Hl. apply elem_of_app in Hl as [Hl|Hl]; [by left|].
  apply list_elem_of_singleton in Hl. subst l. simpl. right. lia.
Qed.

Lemma slideUp_advances (s : Editor) : advances s (exec slideUp s).
Proof.
  unfold slideUp. run.
  apply (advances_trans s (remove_listener InputN "mousedown" (slideUpBound s) s)).
  - apply remove_listener_advances.
  - by apply advances_quiet.
Qed.

Lemma toggleDropDown_advances (s : Editor) : advances s (exec toggleDropDown s).
Proof.
  unfold toggleDropDown. run.
  destruct (inProgress (transit s)); simpl; [apply advances_refl|].
  unfold stateToActionMap.
  destruct (String.eqb (visibility (options s)) "hidden"); [apply slideDown_advances|].
  destruct (String.eqb (visibility (options s)) "visible"); [apply slideUp_advances|].
  apply advances_refl.
Qed.

Lemma insertText_advances (s : Editor) : advances s (exec insertText s).
Proof.
  unfold insertText. run.
  destruct (setRangeText _ _ _ _) as [i|]; simpl.
  - match goal with
    | |- advances ?s0 (snd (toggleDropDown ?s1)) =>
        apply (advances_trans s0 s1);
          [by apply advances_quiet | apply (toggleDropDown_advances s1)]
    end.
  - by apply advances_quiet.
Qed.

Lemma transitionEnd_advances (s : Editor) : advances s (exec transitionEnd s).
Proof.
  unfold transitionEnd. run.
  destruct (inProgress (transit s)); simpl; [|apply advances_refl].
  destruct (atEnd (transit s)) as [[]|]; simpl.
  - split; [by repeat split|]. split; [by right; left|]. simpl. split; [lia|].
    intros l Hl. by left.
  - by apply advances_quiet.
Qed.

Lemma keyup_advances (e : option KeyEvent) (s : Editor) : advances s (exec (keyup e) s).
Proof.
  unfold keyup. run. destruct e as [ev|]; simpl; [|apply advances_refl].
  destruct (isFilterRow _ _); simpl; [|by apply advances_quiet].
  destruct (resolveProperty _ _) as [v|]; simpl; [|by apply advances_quiet].
  destruct (String.eqb v "immediate"); by apply advances_quiet.
Qed.

Lemma timerFires_advances (s : Editor) : advances s (exec timerFires s).
Proof.
  unfold timerFires. run. destruct (timers s); simpl; [apply advances_refl|].
  by apply advances_quiet.
Qed.

Lemma showEditor_advances (s : Editor) : advances s (exec showEditor s).
Proof.
  unfold showEditor, exec.
  cbv beta iota delta [mbind Run_bind get modify mret Run_ret].
  match goal with
  | |- context [forEach ?f ?l ?s1] =>
      assert (Hbody : forall x st, advances st (exec (f x) st));
        [| pose proof (forEach_related advances f l advances_refl advances_trans Hbody s1)
             as Hfr;
           assert (H1 : advances s s1);
           [| unfold exec in Hfr; destruct (forEach f l s1) as [[[]|e] s2]; simpl in *]]
  end.
  - intros m st. run.
    destruct (JS.truthy_str (label m)); simpl;
      match goal with
      | |- context [controls_querySelector ?s1 ?c] =>
          destruct (controls_querySelector s1 c) as [ctrl| |]
      end; simpl;
      first [ by apply advances_quiet
            | eapply advances_trans;
                [| apply setModeIconAndOptgroup_advances]; by apply advances_quiet ].
  - eapply advances_trans; [|apply add_listener_advances]. by apply advances_quiet.
  - eapply advances_trans; [exact H1|]. eapply advances_trans; [exact Hfr|].
    by apply advances_quiet.
  - eapply advances_trans; [exact H1 | exact Hfr].
Qed.

Lemma call_listener_advances (f : Fn) (t : Target) (s : Editor) :
  advances s (exec (call_listener f t) s).
Proof.
  destruct f; simpl.
  - apply toggleDropDown_advances.
  - apply advances_refl.
  - apply insertText_advances.
  - apply onModeIconClick_advances.
  - apply slideUp_advances.
Qed.

Lemma dispatch_advances (n : Node) (ty : string) (t : Target) (s : Editor) :
  advances s (exec (dispatch n ty t) s).
Proof.
  unfold dispatch, exec. unfold mbind at 1, Run_bind at 1, get at 1. simpl.
  apply (forEach_related advances _ _ advances_refl advances_trans).
  intros l st. unfold exec, modify. simpl.
  destruct (still_registered l st); [apply call_listener_advances | apply advances_refl].
Qed.

Lemma perform_advances (a : Action) (s : Editor) : advances s (perform a s).
Proof.
  destruct a; simpl.
  - apply showEditor_advances.
  - by apply advances_quiet.
  - apply keyup_advances.
  - apply dispatch_advances.
  - apply dispatch_advances.
  - apply dispatch_advances.
  - apply dispatch_advances.
  - eapply advances_trans; [|apply dispatch_advances]. by apply advances_quiet.
  - apply transitionEnd_advances.
  - apply timerFires_advances.
  - by apply advances_quiet.
Qed.

Lemma performed_advances (acts : list Action) (s : Editor) :
  advances s (performed acts s).
Proof.
  revert s. induction acts as [|a acts IH]; intros s; [apply advances_refl|].
  unfold performed in *. simpl.
  eapply advances_trans; [apply perform_advances | apply IH].
Qed.

(** ** Invariants of every run *)

(** X1: whatever happens to the editor, it never writes its configuration:
    [this.modes], the grid, and in particular [this.menuModesSource]; the
    modes the user toggles live in the proxy [this.menuModes] only. *)
Theorem performed_keeps_configuration (acts : list Action) (s : Editor) :
  modes (performed acts s) = modes s /\
  menuModesSource (performed acts s) = menuModesSource s /\
  grid (performed acts s) = grid s.
Proof.
  destruct (performed_advances acts s) as ((Hm & Hsrc & Hg & _) & _). done.
Qed.

Lemma toggleDropDown_returns (s : Editor) :
  two_valued s -> returns toggleDropDown s = true.
Proof.
  intros Hv. unfold toggleDropDown, returns. run.
  destruct (inProgress (transit s)); simpl; [done|].
  unfold stateToActionMap. by destruct Hv as [-> | ->].
Qed.

(** X2: once the computed visibility of the list is ['hidden'] or
    ['visible'] it stays one of the two, whatever happens; so the lookup in
    [stateToActionMap] always finds an action and [toggleDropDown] never
    throws. *)
Theorem visibility_stays_two_valued (acts : list Action) (s : Editor) :
  two_valued s ->
  two_valued (performed acts s) /\
  returns toggleDropDown (performed acts s) = true.
Proof.
  intros Hv.
  assert (Hv' : two_valued (performed acts s)).
  { destruct (performed_advances acts s) as (_ & Hvis & _). unfold two_valued in *.
    destruct Hvis as [Hvis|Hvis]; [by rewrite Hvis | exact Hvis]. }
  split; [exact Hv' | by apply toggleDropDown_returns].
Qed.

Lemma visibility_stays_two_valued_witness :
  two_valued (performed [AShow; ADropperMouseDown; AInputMouseDown; ATransitionEnd]
                (exec initialize (blank [distinctValues] ∅))) /\
  returns toggleDropDown
    (performed [AShow; ADropperMouseDown; AInputMouseDown; ATransitionEnd]
       (exec initialize (blank [distinctValues] ∅))) = true.
Proof.
  apply (visibility_stays_two_valued
           [AShow; ADropperMouseDown; AInputMouseDown; ATransitionEnd]
           (exec initialize (blank [distinctValues] ∅))).
  left. vm_compute. reflexivity.
Defined.

(** A listener never carries the identity that the next bound function
    will get: if that holds of the registered listeners it holds after
    anything that happens to the editor. *)
Lemma listener_ids_stay_fresh (acts : list Action) (s : Editor) :
  ids_fresh s -> ids_fresh (performed acts s).
Proof.
  intros Hf. destruct (performed_advances acts s) as (_ & _ & Hn & Hl).
  unfold ids_fresh in *. rewrite Forall_forall in *. intros l Hin.
  destruct (Hl l Hin) as [Hold|Hnew]; [|lia].
  specialize (Hf l Hold). lia.
Qed.

(** ** Opening and closing the drop-down *)

Lemma filter_all {A} (p : A -> bool) (l : list A) :
  Forall (fun x => p x = true) l -> List.filter p l = l.
Proof.
  induction 1 as [|x l Hx _ IH]; simpl; [done|]. by rewrite Hx, IH.
Qed.

Lemma filter_app_last {A} (p : A -> bool) (l : list A) (x : A) :
  p x = false -> List.filter p (l ++ [x]) = List.filter p l.
Proof.
  intros Hx. rewrite List.filter_app. simpl. rewrite Hx. apply app_nil_r.
Qed.

Lemma fresh_keeps_all (s : Editor) :
  ids_fresh s ->
  List.filter (fun l => negb (same_registration InputN "mousedown" (nextFn s) l))
    (listeners s ++ [mkListener InputN "mousedown" SlideUp (nextFn s)])
  = listeners s.
Proof.
  intros Hf. rewrite filter_app_last.
  - apply filter_all. unfold ids_fresh in Hf. eapply Forall_impl; [exact Hf|].
    intros l Hl. simpl in Hl. unfold same_registration.
    destruct (l_node l); simpl; try reflexivity.
    destruct (Nat.eqb_spec (nextFn s) (l_id l)); [lia|].
    by rewrite andb_false_r.
  - simpl. by rewrite Nat.eqb_refl.
Qed.

(** X3: sliding down and up again registers and releases one listener and
    leaks none.  On an editor that started with fresh listener identities
    (none registered, say), after anything that happened to it, the
    listeners registered before a slide-down followed by a slide-up are
    exactly the listeners registered after. *)
Theorem slideDown_slideUp_restores_listeners (acts : list Action) (s : Editor) :
  ids_fresh s ->
  listeners (exec slideUp (exec slideDown (performed acts s)))
  = listeners (performed acts s).
Proof.
  intros Hf. pose proof (listener_ids_stay_fresh acts s Hf) as Hf'.
  unfold slideDown, slideUp. run. apply (fresh_keeps_all _ Hf').
Qed.

Lemma slideDown_slideUp_restores_listeners_witness :
  listeners (exec slideUp (exec slideDown
               (performed [AShow; AClick (TChild 0)] (exec initialize (blank [distinctValues] ∅)))))
  = listeners (performed [AShow; AClick (TChild 0)]
                 (exec initialize (blank [distinctValues] ∅))).
Proof.
  apply (slideDown_slideUp_restores_listeners [AShow; AClick (TChild 0)]
           (exec initialize (blank [distinctValues] ∅))).
  unfold ids_fresh. vm_compute. repeat constructor.
Defined.

(** X4: a full cycle of the drop-down.  From the closed state at rest, a
    toggle, the end of its transition, a second toggle and the end of its
    transition bring the list back hidden with the lock free; the cycle
    leaves no listener behind and touches neither the modes, the toggles,
    the items of the list nor the text box. *)
Theorem open_close_cycle (s : Editor) :
  ids_fresh s ->
  inProgress (transit s) = false ->
  visibility (options s) = "hidden" ->
  let s_open := exec transitionEnd (exec toggleDropDown s) in
  let s_closed := exec transitionEnd (exec toggleDropDown s_open) in
  visibility (options s_open) = "visible" /\
  visibility (options s_closed) = "hidden" /\
  transit s_closed = mkTransit false None /\
  listeners s_closed = listeners s /\
  menuModes s_closed = menuModes s /\
  controls s_closed = controls s /\
  children (dropdown s_closed) = children (dropdown s) /\
  input s_closed = input s.
Proof.
  intros Hf Hfree Hvis. cbv zeta.
  unfold toggleDropDown, transitionEnd, stateToActionMap, slideDown, slideUp. run.
  rewrite Hfree. simpl. rewrite Hvis. simpl.
  repeat split; try reflexivity.
  apply (fresh_keeps_all s Hf).
Qed.

Lemma open_close_cycle_witness :
  visibility (options (exec transitionEnd (exec toggleDropDown shown))) = "visible" /\
  visibility (options
    (exec transitionEnd (exec toggleDropDown
       (exec transitionEnd (exec toggleDropDown shown))))) = "hidden" /\
  transit (exec transitionEnd (exec toggleDropDown
             (exec transitionEnd (exec toggleDropDown shown)))) = mkTransit false None /\
  listeners (exec transitionEnd (exec toggleDropDown
               (exec transitionEnd (exec toggleDropDown shown)))) = listeners shown /\
  menuModes (exec transitionEnd (exec toggleDropDown
               (exec transitionEnd (exec toggleDropDown shown)))) = menuModes shown /\
  controls (exec transitionEnd (exec toggleDropDown
              (exec transitionEnd (exec toggleDropDown shown)))) = controls shown /\
  children (dropdown (exec transitionEnd (exec toggleDropDown
              (exec transitionEnd (exec toggleDropDown shown))))) = children (dropdown shown) /\
  input (exec transitionEnd (exec toggleDropDown
           (exec transitionEnd (exec toggleDropDown shown)))) = input shown.
Proof.
  apply (open_close_cycle shown).
  - unfold ids_fresh. vm_compute. repeat constructor.
  - vm_compute. reflexivity.
  - vm_compute. reflexivity.
Defined.

(** X5: when the computed visibility is neither ['hidden'] nor ['visible']
    (CSS also has ['collapse']) and no transition is in flight, the lookup
    in [stateToActionMap] finds nothing and [toggleDropDown] ends in a
    [TypeError], the editor unchanged. *)
Theorem toggleDropDown_unknown_visibility (s : Editor) :
  inProgress (transit s) = false ->
  visibility (options s) <> "hidden" ->
  visibility (options s) <> "visible" ->
  toggleDropDown s = (Thrown (JS.TypeError "stateToActionMap[state] is undefined"), s).
Proof.
  intros Hfree Hh Hv. unfold toggleDropDown. run. rewrite Hfree. simpl.
  unfold stateToActionMap.
  destruct (String.eqb_spec (visibility (options s)) "hidden"); [done|].
  destruct (String.eqb_spec (visibility (options s)) "visible"); [done|].
  reflexivity.
Qed.

Lemma toggleDropDown_unknown_visibility_witness :
  toggleDropDown (with_options (fun o => mkOptionsStyle "collapse" (height o)) (blank [] ∅))
  = (Thrown (JS.TypeError "stateToActionMap[state] is undefined"),
     with_options (fun o => mkOptionsStyle "collapse" (height o)) (blank [] ∅)).
Proof.
  apply (toggleDropDown_unknown_visibility
           (with_options (fun o => mkOptionsStyle "collapse" (height o)) (blank [] ∅)));
    [vm_compute; reflexivity | vm_compute; discriminate | vm_compute; discriminate].
Defined.

(** ** Choosing an item while the drop-down slides *)

(** X6: an item chosen while a transition is in flight is inserted into the
    text box, but the request to close the drop-down is dropped with the
    lock held: the slide style, the lock and the listeners are as before and
    the drop-down stays as it is. *)
Theorem insertText_in_flight (s : Editor) (i : Input) :
  inProgress (transit s) = true ->
  setRangeText (d_value (dropdown s))
    (default 0 (selectionStart s)) (default 0 (selectionEnd s)) (input s) = Some i ->
  insertText s = (Done tt, with_input i (with_calls (fun c => c ++ [InputFocus]) s)) /\
  options (exec insertText s) = options s /\
  transit (exec insertText s) = transit s /\
  listeners (exec insertText s) = listeners s.
Proof.
  intros Hbusy Hset.
  assert (H : insertText s
              = (Done tt, with_input i (with_calls (fun c => c ++ [InputFocus]) s))).
  { unfold insertText, toggleDropDown. run. rewrite Hset. simpl. by rewrite Hbusy. }
  split; [exact H|]. unfold exec. rewrite H. done.
Qed.

Lemma insertText_in_flight_witness :
  insertText (choose "<>" sliding_down)
  = (Done tt, with_input (mkInput "h<>lo" 3 3)
                (with_calls (fun c => c ++ [InputFocus]) (choose "<>" sliding_down))) /\
  options (exec insertText (choose "<>" sliding_down)) = options (choose "<>" sliding_down) /\
  transit (exec insertText (choose "<>" sliding_down)) = transit (choose "<>" sliding_down) /\
  listeners (exec insertText (choose "<>" sliding_down))
  = listeners (choose "<>" sliding_down).
Proof.
  apply (insertText_in_flight (choose "<>" sliding_down) (mkInput "h<>lo" 3 3));
    vm_compute; reflexivity.
Defined.

(** ** What a click on a toggle writes *)

Lemma existsb_filter_out (c : string) (l : list string) :
  existsb (String.eqb c) (List.filter (fun x => negb (String.eqb c x)) l) = false.
Proof.
  induction l as [|x l IH]; simpl; [done|].
  destruct (String.eqb c x) eqn:Hx; simpl; [exact IH|]. by rewrite Hx.
Qed.

Lemma has_class_toggle (c : string) (b : bool) (e : Element) :
  has_class c (classList_toggle c b e) = b.
Proof.
  unfold has_class, classList_toggle. cbn [classList]. destruct b.
  - destruct (existsb (String.eqb c) (classList e)) eqn:Hc; [exact Hc|].
    rewrite existsb_app. cbn [existsb]. by rewrite String.eqb_refl, orb_true_r.
  - apply existsb_filter_out.
Qed.

Lemma truthy_get_set_flipped (o : gmap string JS.Value) (k : string) :
  JS.truthy (JS.get (JS.set o k (JS.Num (JS.xor1 (JS.get o k)))) k)
  = JS.truthy (Some (JS.Num (JS.xor1 (JS.get o k)))).
Proof.
  unfold JS.set. destruct (String.eqb_spec k "__proto__") as [->|Hne].
  - destruct (o !! "__proto__") as [v|] eqn:Ho.
    + by rewrite (get_own _ _ _ (lookup_insert_eq o "__proto__" _)).
    + unfold JS.get. rewrite Ho. reflexivity.
  - by rewrite (get_own _ _ _ (lookup_insert_eq o k _)).
Qed.

(** X7: a click on the toggle of a mode assigns the flipped flag of that
    mode to [this.menuModes] (a flag that is absent, or no number, counts
    as 0 and becomes 1) and touches no other flag; the flag is written
    whether or not the rest of the handler throws.  The assignment stores
    the flag under every name but ['__proto__'], which a plain object
    takes for its prototype. *)
Theorem click_flips_only_its_flag
    (s : Editor) (i : nat) (ctrl : Element) (n : string) :
  controls s !! i = Some ctrl ->
  tagName ctrl = "SPAN" ->
  JS.find (JS.starts_with TOGGLE_MODE_PREFIX) (classList ctrl)
    = Some (TOGGLE_MODE_PREFIX +:+ n) ->
  menuModes (exec (onModeIconClick (TChild i)) s)
    = JS.set (menuModes s) n (JS.Num (Z.lxor (JS.int32_of (menuModes s !! n)) 1)) /\
  (n <> "__proto__" ->
   menuModes (exec (onModeIconClick (TChild i)) s) !! n
     = Some (JS.Num (Z.lxor (JS.int32_of (menuModes s !! n)) 1))) /\
  forall k, k <> n ->
    menuModes (exec (onModeIconClick (TChild i)) s) !! k = menuModes s !! k.
Proof.
  intros Hctrl Hspan Hcls.
  rewrite (onModeIconClick_menuModes s i ctrl n Hctrl Hspan Hcls).
  unfold JS.xor1. rewrite int32_of_get. split; [reflexivity|]. split.
  - intros Hne. by rewrite set_named, lookup_insert_eq.
  - intros k Hk. by apply set_lookup_ne.
Qed.

Lemma click_flips_only_its_flag_witness :
  menuModes (exec (onModeIconClick (TChild 1)) shared_group)
    = JS.set (menuModes shared_group) "y"
        (JS.Num (Z.lxor (JS.int32_of (menuModes shared_group !! "y")) 1)) /\
  ("y" <> "__proto__" ->
   menuModes (exec (onModeIconClick (TChild 1)) shared_group) !! "y"
     = Some (JS.Num (Z.lxor (JS.int32_of (menuModes shared_group !! "y")) 1))) /\
  forall k, k <> "y" ->
    menuModes (exec (onModeIconClick (TChild 1)) shared_group) !! k
    = menuModes shared_group !! k.
Proof.
  apply (click_flips_only_its_flag shared_group 1
           (mkElement "SPAN" ["toggle-mode-y"] "Toggle y" "y") "y");
    vm_compute; reflexivity.
Defined.

(** X8: after a click on the toggle of a mode, the toggle carries the class
    [active] exactly when the flag of the mode, read back from
    [this.menuModes], is truthy: the icon mirrors the flag, also when the
    handler throws after marking it. *)
Theorem click_icon_mirrors_flag
    (s : Editor) (i : nat) (ctrl : Element) (n : string) :
  controls s !! i = Some ctrl ->
  tagName ctrl = "SPAN" ->
  JS.find (JS.starts_with TOGGLE_MODE_PREFIX) (classList ctrl)
    = Some (TOGGLE_MODE_PREFIX +:+ n) ->
  exists ctrl',
    controls (exec (onModeIconClick (TChild i)) s) !! i = Some ctrl' /\
    has_class "active" ctrl'
    = JS.truthy (JS.get (menuModes (exec (onModeIconClick (TChild i)) s)) n).
Proof.
  intros Hctrl Hspan Hcls.
  rewrite (onModeIconClick_menuModes s i ctrl n Hctrl Hspan Hcls).
  rewrite truthy_get_set_flipped.
  unfold exec. rewrite (onModeIconClick_toggle s i ctrl n Hctrl Hspan Hcls).
  match goal with
  | |- context [setModeIconAndOptgroup ?i ?n ?st ?s1] =>
      pose proof (setModeIconAndOptgroup_controls i n st s1) as Hc
  end.
  unfold exec in Hc. rewrite Hc. simpl controls.
  rewrite list_lookup_alter_eq, Hctrl. simpl.
  eexists. split; [reflexivity|]. apply has_class_toggle.
Qed.

Lemma click_icon_mirrors_flag_witness :
  exists ctrl',
    controls (exec (onModeIconClick (TChild 0)) shown) !! 0 = Some ctrl' /\
    has_class "active" ctrl'
    = JS.truthy (JS.get (menuModes (exec (onModeIconClick (TChild 0)) shown))
                   "distinctValues").
Proof.
  apply (click_icon_mirrors_flag shown 0
           (mkElement "SPAN" ["toggle-mode-distinctValues"; "active"]
              "Toggle distinct values" "D") "distinctValues");
    vm_compute; reflexivity.
Defined.

(** ** The class of a toggle *)

Lemma prefix_append (p s : string) : String.prefix p (p +:+ s) = true.
Proof.
  induction p as [|c p IH].
  - by destruct s.
  - simpl.
    destruct (ascii_dec c c) as [_|Hne]; [exact IH | contradiction].
Qed.

Lemma split_on_spaces_one (l cur : list ascii) :
  Forall (fun c => is_space c = false) l ->
  cur ++ l <> [] ->
  split_on_spaces cur l = [string_of_list_ascii (rev cur ++ l)].
Proof.
  intros Hl. revert cur. induction Hl as [|c l Hc _ IH]; intros cur Hne.
  - rewrite app_nil_r in *. simpl. by destruct cur.
  - simpl. rewrite Hc. rewrite IH by done.
    simpl. by rewrite <- app_assoc.
Qed.

(** A class attribute without white space is one token. *)
Lemma class_tokens_one (v : string) :
  v <> "" -> one_token v -> class_tokens v = [v].
Proof.
  intros Hne Hv. unfold class_tokens. rewrite split_on_spaces_one.
  - simpl. by rewrite string_of_list_ascii_of_string.
  - exact Hv.
  - simpl. intros H. apply Hne.
    rewrite <- (string_of_list_ascii_of_string v). by rewrite H.
Qed.

Lemma toggle_class_one_token (n : string) :
  one_token n -> class_tokens (TOGGLE_MODE_PREFIX +:+ n) = [TOGGLE_MODE_PREFIX +:+ n].
Proof.
  intros Hn. apply class_tokens_one; [discriminate|].
  unfold one_token. rewrite list_ascii_of_string_app. apply Forall_app. split; [|exact Hn].
  simpl. repeat constructor.
Qed.

Lemma is_css_name_toggle (n : string) :
  css_name n -> is_css_name (TOGGLE_MODE_PREFIX +:+ n) = true.
Proof.
  intros Hn. unfold is_css_name. rewrite list_ascii_of_string_app, forallb_app.
  apply andb_true_intro. split; [reflexivity|].
  apply forallb_forall. intros c Hc. unfold css_name in Hn.
  rewrite Forall_forall in Hn. apply Hn. by apply list_elem_of_In.
Qed.

Lemma css_name_one_token (n : string) : css_name n -> one_token n.
Proof.
  unfold css_name, one_token. intros Hn. eapply Forall_impl; [exact Hn|].
  simpl. intros c Hc.
  destruct c as [b0 b1 b2 b3 b4 b5 b6 b7].
  destruct b0, b1, b2, b3, b4, b5, b6, b7; first [reflexivity | discriminate Hc].
Qed.

(** X9: the name [onModeIconClick] extracts from the class of a toggle
    that [showEditor] created is the name of the mode the toggle was created
    for, whether or not the toggle is marked active, provided the name holds
    no white space (on which the class attribute would be split). *)
Theorem toggle_names_its_mode (m : Mode) (b : bool) :
  one_token (name m) ->
  JS.substr (String.length TOGGLE_MODE_PREFIX)
    <$> JS.find (JS.starts_with TOGGLE_MODE_PREFIX)
          (classList (classList_toggle "active" b (new_toggle m)))
  = Some (name m).
Proof.
  intros Hname.
  rewrite classList_toggle_mode_class. unfold new_toggle. cbn [classList].
  rewrite (toggle_class_one_token _ Hname). unfold JS.find. cbn [List.find].
  unfold JS.starts_with at 1. rewrite prefix_append.
  cbn [fmap option_fmap option_map]. by rewrite substr_mode_name.
Qed.

Lemma toggle_names_its_mode_witness :
  JS.substr (String.length TOGGLE_MODE_PREFIX)
    <$> JS.find (JS.starts_with TOGGLE_MODE_PREFIX)
          (classList (classList_toggle "active" true (new_toggle distinctValues)))
  = Some (name distinctValues).
Proof.
  apply (toggle_names_its_mode distinctValues true).
  unfold one_token. simpl. repeat constructor.
Defined.

(** A name with white space is split: the toggle made for [my mode] carries
    the classes [toggle-mode-my] and [mode], and a click on it names the
    mode [my]. *)
Example spaced_name_is_split :
  classList (new_toggle (mkMode "my mode" None None "m" "" (fun _ => ([], 0))))
    = ["toggle-mode-my"; "mode"] /\
  JS.substr (String.length TOGGLE_MODE_PREFIX)
    <$> JS.find (JS.starts_with TOGGLE_MODE_PREFIX)
          (classList (new_toggle (mkMode "my mode" None None "m" "" (fun _ => ([], 0)))))
  = Some "my".
Proof. split; vm_compute; reflexivity. Qed.

(** For such a name ['.toggle-mode-my mode'] is no class selector; where
    the selector engine finds nothing for it, [showEditor] ends in a
    [TypeError] on the first mode and the superclass is not reached. *)
Example spaced_name_throws :
  fst (showEditor
         (exec initialize
            (blank [mkMode "my mode" None None "m" "" (fun _ => ([], 0))] ∅)))
    = Thrown (JS.TypeError "ctrl is null") /\
  calls (exec showEditor
           (exec initialize
              (blank [mkMode "my mode" None None "m" "" (fun _ => ([], 0))] ∅)))
    = [].
Proof. split; vm_compute; reflexivity. Qed.

(** ** Disabling and enabling a mode *)

(** X10: disabling a mode only hides.  With a falsy state
    [setModeIconAndOptgroup] returns normally, sets the display of every
    element matched by the mode's selector to ['none'], and changes nothing
    else in the list: no item is removed and no label is touched. *)
Theorem disabling_only_hides ctrl nm st s m :
  JS.find (fun m' => String.eqb (name m') nm) (modes s) = Some m ->
  JS.truthy st = false ->
  returns (setModeIconAndOptgroup ctrl nm st) s = true /\
  all_display "none" (exec (setModeIconAndOptgroup ctrl nm st) s) m /\
  set_child_display "" <$> children (dropdown (exec (setModeIconAndOptgroup ctrl nm st) s))
  = set_child_display "" <$> children (dropdown s).
Proof.
  intros Hfind Hst.
  pose proof (setModeIconAndOptgroup_all_display ctrl nm st s m Hfind) as Hall.
  unfold display_of in Hall. rewrite Hst in Hall.
  split; [|split; [exact Hall|]].
  - unfold setModeIconAndOptgroup. run. unfold JS.find in *. by rewrite Hfind, Hst.
  - unfold setModeIconAndOptgroup. run. unfold JS.find in *. rewrite Hfind, Hst. simpl.
    unfold each_display. rewrite <- list_fmap_compose. apply list_fmap_ext.
    intros j c _. simpl. destruct (selected (css s) (selector m) c); [|done].
    by destruct c.
Qed.

Lemma disabling_only_hides_witness :
  returns (setModeIconAndOptgroup 0 "distinctValues" (Some (JS.Num 0))) shown = true /\
  all_display "none" (exec (setModeIconAndOptgroup 0 "distinctValues" (Some (JS.Num 0))) shown)
    distinctValues /\
  set_child_display ""
    <$> children (dropdown (exec (setModeIconAndOptgroup 0 "distinctValues" (Some (JS.Num 0))) shown))
  = set_child_display "" <$> children (dropdown shown).
Proof.
  apply (disabling_only_hides 0 "distinctValues" (Some (JS.Num 0)) shown distinctValues);
    vm_compute; reflexivity.
Defined.



(** ** What [showEditor] builds *)

Lemma showEditor_loop :
  showEditor
  = (s0 ← get;
     modify (with_menuModes (fun _ => build_proxy (menuModesSource s0) (modes s0))) ;;
     modify (add_listener ControlsN "click" OnModeIconClick) ;;
     forEach show_mode (modes s0) ;;
     modify (with_calls (fun c => c ++ [SuperShowEditor]))).
Proof. reflexivity. Qed.

Lemma show_mode_frame (m : Mode) (s : Editor) :
  same_outside_modes s (exec (show_mode m) s).
Proof. unfold show_mode. exact (showEditor_toggle_frame m s). Qed.

(** The state [showEditor] reaches, in terms of its loop. *)
Lemma showEditor_run (s : Editor) :
  let s1 := add_listener ControlsN "click" OnModeIconClick
              (with_menuModes (fun _ => build_proxy (menuModesSource s) (modes s)) s) in
  showEditor s
  = match forEach show_mode (modes s) s1 with
    | (Done _, s2) => (Done tt, with_calls (fun c => c ++ [SuperShowEditor]) s2)
    | (Thrown e, s2) => (Thrown e, s2)
    end.
Proof.
  rewrite showEditor_loop. cbv zeta.
  cbv beta iota delta [mbind Run_bind get modify mret Run_ret].
  destruct (forEach show_mode (modes s) _) as [[[]|e] s2]; reflexivity.
Qed.

(** X12: [showEditor] reaches the superclass's [showEditor] only when its
    loop over the modes completes: when a mode makes it throw, the editor is
    left with the proxy built and the click listener registered, but the
    superclass has not been asked to show it. *)
Theorem showEditor_shows_only_on_success (s : Editor) :
  calls (exec showEditor s)
  = if returns showEditor s then calls s ++ [SuperShowEditor] else calls s.
Proof.
  unfold exec, returns. rewrite showEditor_run. cbv zeta.
  match goal with
  | |- context [forEach show_mode ?l ?s1] =>
      pose proof (forEach_related same_outside_modes show_mode l
                    same_outside_modes_refl same_outside_modes_trans
                    show_mode_frame s1) as Hfr;
      unfold exec in Hfr; destruct (forEach show_mode l s1) as [[[]|e] s2]
  end; simpl in *;
    destruct Hfr as (_ & _ & _ & _ & _ & _ & _ & _ & _ & _ & _ & _ & _ & Hc);
    by rewrite Hc.
Qed.

(** X13: every call of [showEditor] registers one more click listener on
    the control area, whether or not it completes, and removes none. *)
Theorem showEditor_registers_click_listener (s : Editor) :
  listeners (exec showEditor s)
  = listeners s ++ [mkListener ControlsN "click" OnModeIconClick (nextFn s)].
Proof.
  unfold exec. rewrite showEditor_run. cbv zeta.
  match goal with
  | |- context [forEach show_mode ?l ?s1] =>
      pose proof (forEach_related same_outside_modes show_mode l
                    same_outside_modes_refl same_outside_modes_trans
                    show_mode_frame s1) as Hfr;
      unfold exec in Hfr; destruct (forEach show_mode l s1) as [[[]|e] s2]
  end; simpl in *;
    destruct Hfr as (_ & _ & _ & _ & _ & _ & _ & Hl & _);
    by rewrite Hl.
Qed.

Lemma append_inj (p a b : string) : p +:+ a = p +:+ b -> a = b.
Proof.
  induction p as [|c p IH]; simpl; [done|]. intros [= H]. by apply IH.
Qed.

Lemma index_where_last {A} (p : A -> bool) (l : list A) (x : A) :
  (forall y, y ∈ l -> p y = false) -> p x = true ->
  index_where p (l ++ [x]) = Some (length l).
Proof.
  intros Hl Hx. induction l as [|y l IH]; simpl.
  - by rewrite Hx.
  - rewrite (Hl y) by apply list_elem_of_here.
    rewrite IH; [done|]. intros z Hz. apply Hl. by apply list_elem_of_further.
Qed.

Lemma mode_class_not_active (n : string) :
  String.eqb "active" (TOGGLE_MODE_PREFIX +:+ n) = false /\
  String.eqb (TOGGLE_MODE_PREFIX +:+ n) "active" = false.
Proof. split; reflexivity. Qed.

Lemma has_class_toggle_of mm (m m' : Mode) :
  has_class (TOGGLE_MODE_PREFIX +:+ name m) (toggle_of mm m')
  = String.eqb (name m) (name m').
Proof.
  unfold has_class, toggle_of. cbn [classList].
  assert (He : String.eqb (TOGGLE_MODE_PREFIX +:+ name m) (TOGGLE_MODE_PREFIX +:+ name m')
               = String.eqb (name m) (name m')).
  { destruct (String.eqb_spec (name m) (name m')) as [->|Hne].
    - apply String.eqb_refl.
    - apply String.eqb_neq. intros H. by apply append_inj in H. }
  destruct (mode_class_not_active (name m)) as [_ Hna].
  destruct (JS.truthy (JS.get mm (name m'))); cbn [existsb]; rewrite He, ?Hna;
    by rewrite ?orb_false_r.
Qed.

Lemma toggle_marked mm (m : Mode) :
  one_token (name m) ->
  classList_toggle "active" (JS.truthy (JS.get mm (name m))) (new_toggle m) = toggle_of mm m.
Proof.
  intros Hname.
  unfold classList_toggle, new_toggle, toggle_of. cbn [classList tagName title textContent].
  rewrite (toggle_class_one_token _ Hname).
  destruct (mode_class_not_active (name m)) as [Han _].
  destruct (JS.truthy (JS.get mm (name m))); cbn [existsb List.filter]; by rewrite Han.
Qed.

(** The loop of [showEditor], one toggle per mode. *)
Lemma show_modes_toggles (mm : gmap string JS.Value) (todo : list Mode) :
  forall (seen : list Mode) (s1 s2 : Editor),
  controls s1 = toggle_of mm <$> seen ->
  menuModes s1 = mm ->
  NoDup (name <$> (seen ++ todo)) ->
  Forall (fun m => css_name (name m)) todo ->
  forEach show_mode todo s1 = (Done tt, s2) ->
  controls s2 = toggle_of mm <$> (seen ++ todo).
Proof.
  induction todo as [|m todo IH]; intros seen s1 s2 Hc Hmm Hnd Hnames Hrun.
  - simpl in Hrun. injection Hrun as <-. by rewrite app_nil_r.
  - cbn [forEach] in Hrun. unfold mbind, Run_bind in Hrun.
    destruct (show_mode m s1) as [[[]|e] sc] eqn:Hstep; [|discriminate Hrun].
    apply Forall_cons in Hnames as [Hcss Hnames].
    pose proof (css_name_one_token _ Hcss) as Hname.
    assert (Hfresh : forall m', m' ∈ seen -> name m' <> name m).
    { intros m' Hin Heq. rewrite fmap_app, fmap_cons in Hnd.
      apply NoDup_app in Hnd as (_ & Hdis & _).
      apply (Hdis (name m')); [by apply list_elem_of_fmap_2|].
      rewrite Heq. apply list_elem_of_here. }
    assert (Hsc : controls sc = toggle_of mm <$> (seen ++ [m]) /\
                  menuModes sc = mm).
    { pose proof (show_mode_frame m s1) as (_ & _ & Hmm1 & _).
      unfold exec in Hmm1. rewrite Hstep in Hmm1. simpl in Hmm1.
      split; [|by rewrite Hmm1].
      unfold show_mode in Hstep. run.
      assert (Hfound : forall s0,
                 controls s0 = controls s1 ++ [new_toggle m] ->
                 controls_querySelector s0 (TOGGLE_MODE_PREFIX +:+ name m)
                 = Match (length seen)).
      { intros s0 Hs0. unfold controls_querySelector.
        rewrite (is_css_name_toggle _ Hcss), Hs0, Hc.
        rewrite <- (length_fmap (toggle_of mm) seen).
        rewrite index_where_last; [reflexivity| |].
        - intros y Hy. apply list_elem_of_fmap in Hy as (m' & -> & Hin).
          rewrite has_class_toggle_of. apply String.eqb_neq.
          intros Heq. by apply (Hfresh m' Hin).
        - unfold has_class, new_toggle. cbn [classList].
          rewrite (toggle_class_one_token _ Hname). cbn [existsb].
          by rewrite String.eqb_refl. }
      destruct (JS.truthy_str (label m)); simpl in Hstep;
        rewrite Hfound in Hstep by reflexivity;
        match type of Hstep with
        | setModeIconAndOptgroup ?i ?n ?st ?s0 = _ =>
            pose proof (setModeIconAndOptgroup_controls i n st s0) as Hctl;
            unfold exec in Hctl; rewrite Hstep in Hctl; simpl in Hctl
        end;
        rewrite Hctl, Hc, Hmm;
        rewrite <- (length_fmap (toggle_of mm) seen);
        rewrite alter_app_r_alt by lia; rewrite Nat.sub_diag, fmap_app; simpl;
        by rewrite (toggle_marked mm m Hname). }
    destruct Hsc as [Hc' Hmm'].
    rewrite (IH (seen ++ [m]) sc s2 Hc' Hmm').
    + by rewrite <- app_assoc.
    + by rewrite <- app_assoc.
    + exact Hnames.
    + exact Hrun.
Qed.

(** X14: when [showEditor] completes on an editor whose control area is
    empty and whose modes have distinct names made of letters, digits, [_]
    and [-] and titles within ASCII, the control area holds one toggle per
    mode, in the order of [this.modes]: a span of class
    [toggle-mode-<name>], titled after the label (or the name) in lower
    case, showing the symbol, and marked [active] exactly when the mode's
    flag, read from the proxy [this.menuModes], is truthy. *)
Theorem showEditor_builds_toggles (s : Editor) :
  controls s = [] ->
  NoDup (name <$> modes s) ->
  Forall (fun m => css_name (name m) /\
                   ascii_text (JS.or_else (label m) (name m))) (modes s) ->
  returns showEditor s = true ->
  controls (exec showEditor s)
  = toggle_of (menuModes (exec showEditor s)) <$> modes s.
Proof.
  intros Hc Hnd Hnames Hret.
  rewrite (proj1 (showEditor_proxy s)).
  unfold exec, returns in *. rewrite showEditor_run in *.
  cbv zeta in *.
  destruct (forEach show_mode (modes s) _) as [[[]|e] s2] eqn:Hrun; [|discriminate Hret].
  simpl.
  eapply (show_modes_toggles (build_proxy (menuModesSource s) (modes s)) (modes s) []);
    [| | | | exact Hrun]; try done.
  eapply Forall_impl; [exact Hnames|]. by intros m [Hm _].
Qed.

Lemma showEditor_builds_toggles_witness :
  controls (exec showEditor (exec initialize (blank [mode_x; mode_y] {["x" := 1%Z; "y" := 0%Z]})))
  = toggle_of
      (menuModes
         (exec showEditor (exec initialize (blank [mode_x; mode_y] {["x" := 1%Z; "y" := 0%Z]}))))
      <$> modes (exec initialize (blank [mode_x; mode_y] {["x" := 1%Z; "y" := 0%Z]})).
Proof.
  apply (showEditor_builds_toggles
           (exec initialize (blank [mode_x; mode_y] {["x" := 1%Z; "y" := 0%Z]}))).
  - vm_compute. reflexivity.
  - apply (bool_decide_unpack _). vm_compute. exact I.
  - unfold css_name, ascii_text. simpl.
    repeat (constructor; [split; repeat (constructor; [first [reflexivity | lia]|])|]);
      repeat constructor.
  - vm_compute. reflexivity.
Defined.

(** The toggle of a mode named after a member of [Object.prototype] is
    marked active though the source holds no flag of that name. *)
Example inherited_name_is_active :
  controls (exec showEditor named_constructor)
  = [mkElement "SPAN" ["toggle-mode-constructor"; "active"] "Toggle constructor" "C"].
Proof. vm_compute. reflexivity. Qed.

(** X15: toggles made by the user do not survive the next [showEditor]:
    whatever happened to the editor, showing it again rebuilds the proxy
    from the untouched source, so every flag is back at the source's value. *)
Theorem showEditor_forgets_toggles (acts : list Action) (s : Editor) :
  menuModes (exec showEditor (performed acts s)) = menuModes (exec showEditor s).
Proof.
  assert (Hproxy : forall st,
             menuModes (exec showEditor st) = build_proxy (menuModesSource st) (modes st)).
  { intros st. unfold exec. rewrite showEditor_run. cbv zeta.
    match goal with
    | |- context [forEach show_mode ?l ?s1] =>
        pose proof (forEach_related same_outside_modes show_mode l
                      same_outside_modes_refl same_outside_modes_trans
                      show_mode_frame s1) as Hfr;
        unfold exec in Hfr; destruct (forEach show_mode l s1) as [[[]|e] s2]
    end; simpl in *; destruct Hfr as (_ & _ & Hmm & _); by rewrite Hmm. }
  rewrite !Hproxy.
  destruct (performed_advances acts s) as ((Hm & Hsrc & _) & _).
  by rewrite Hm, Hsrc.
Qed.

Lemma group_classes_app (l1 l2 : list Child) :
  group_classes (l1 ++ l2) = group_classes l1 ++ group_classes l2.
Proof. unfold group_classes. apply omap_app. Qed.

Lemma group_classes_each_display css sel d (l : list Child) :
  group_classes (each_display css sel d l) = group_classes l.
Proof.
  unfold group_classes, each_display. induction l as [|c l IH]; [done|].
  rewrite fmap_cons. cbn [omap list_omap]. rewrite IH.
  destruct (selected css sel c); [|done]. by destruct c.
Qed.

Lemma group_classes_alter_rebuild m i (l : list Child) :
  group_classes (alter (rebuild_group m) i l) = group_classes l.
Proof.
  unfold group_classes. revert i. induction l as [|c l IH]; intros i; [done|].
  destruct i as [|i]; cbn [alter list_alter omap list_omap].
  - destruct c as [o|g]; [done|]. simpl.
    by destruct (appendOptions m (map o_value (og_options g))).
  - by rewrite (IH i).
Qed.

Lemma group_classes_options (vs : list OptionEl) : group_classes (map Opt vs) = [].
Proof. unfold group_classes. induction vs as [|v vs IH]; [done|]. exact IH. Qed.

Lemma setModeIconAndOptgroup_group_classes ctrl nm st s :
  group_classes (children (dropdown (exec (setModeIconAndOptgroup ctrl nm st) s)))
  = group_classes (children (dropdown s)).
Proof.
  unfold setModeIconAndOptgroup, JS.find. run.
  destruct (JS.truthy st); simpl;
    destruct (List.find _ (modes s)) as [m|]; simpl;
    try (destruct (JS.truthy_str (selector m)); simpl);
    try (destruct (querySelector _ _); simpl);
    rewrite ?group_classes_each_display, ?group_classes_alter_rebuild;
    try reflexivity.
  unfold rebuild_list. by rewrite group_classes_app, group_classes_options, app_nil_r.
Qed.

Lemma show_mode_group_classes (m : Mode) (s : Editor) :
  group_classes (children (dropdown (exec (show_mode m) s)))
  = group_classes (children (dropdown s)) ++ labelled_classes [m].
Proof.
  unfold show_mode, labelled_classes. run. cbn [omap list_omap].
  destruct (JS.truthy_str (label m)); simpl;
    match goal with
    | |- context [controls_querySelector ?s1 ?c] =>
        destruct (controls_querySelector s1 c) as [ctrl| |]
    end; simpl;
    try match goal with
        | |- context [setModeIconAndOptgroup ?i ?n ?st ?s0] =>
            pose proof (setModeIconAndOptgroup_group_classes i n st s0) as Hg;
            unfold exec in Hg; rewrite Hg; clear Hg
        end; simpl;
    rewrite ?group_classes_app, ?app_nil_r; reflexivity.
Qed.

Lemma show_modes_group_classes (todo : list Mode) :
  forall s1 s2,
  forEach show_mode todo s1 = (Done tt, s2) ->
  group_classes (children (dropdown s2))
  = group_classes (children (dropdown s1)) ++ labelled_classes todo.
Proof.
  induction todo as [|m todo IH]; intros s1 s2 Hrun.
  - simpl in Hrun. injection Hrun as <-. by rewrite app_nil_r.
  - cbn [forEach] in Hrun. unfold mbind, Run_bind in Hrun.
    destruct (show_mode m s1) as [[[]|e] sc] eqn:Hstep; [|discriminate Hrun].
    rewrite (IH sc s2 Hrun).
    pose proof (show_mode_group_classes m s1) as Hm. unfold exec in Hm.
    rewrite Hstep in Hm. simpl in Hm. rewrite Hm, <- app_assoc. f_equal.
    unfold labelled_classes. cbn [omap list_omap].
    by destruct (JS.truthy_str (label m)).
Qed.

(** X16: when [showEditor] completes, the list has gained one optgroup per
    mode that has a label, of class [submenu-<name>], in the order of
    [this.modes], and no other optgroup; a mode without label gets none. *)
Theorem showEditor_builds_optgroups (s : Editor) :
  returns showEditor s = true ->
  group_classes (children (dropdown (exec showEditor s)))
  = group_classes (children (dropdown s)) ++ labelled_classes (modes s).
Proof.
  intros Hret. unfold exec, returns in *. rewrite showEditor_run in *. cbv zeta in *.
  destruct (forEach show_mode (modes s) _) as [[[]|e] s2] eqn:Hrun; [|discriminate Hret].
  simpl. by rewrite (show_modes_group_classes _ _ _ Hrun).
Qed.

Lemma showEditor_builds_optgroups_witness :
  group_classes (children (dropdown (exec showEditor
    (exec initialize (blank [mode_x; mode_y] {["x" := 1%Z; "y" := 0%Z]})))))
  = group_classes (children (dropdown
      (exec initialize (blank [mode_x; mode_y] {["x" := 1%Z; "y" := 0%Z]}))))
    ++ labelled_classes (modes
         (exec initialize (blank [mode_x; mode_y] {["x" := 1%Z; "y" := 0%Z]}))).
Proof.
  apply (showEditor_builds_optgroups
           (exec initialize (blank [mode_x; mode_y] {["x" := 1%Z; "y" := 0%Z]}))).
  vm_compute. reflexivity.
Defined.

(** ** The clean-up of the label *)

(** X17: the clean-up [label.replace(/ \(\d+\)$/, '')] removes nothing but
    one final sum: the result is the label itself, or the label is the
    result followed by [" ("], one or more digits and [")"]. *)
Theorem strip_sum_removes_a_final_sum (l : string) :
  JS.strip_sum l = l \/
  exists ds,
    ds <> "" /\
    Forall (fun c => JS.is_digit c = true) (list_ascii_of_string ds) /\
    l = JS.strip_sum l +:+ " (" +:+ ds +:+ ")".
Proof. exact (strip_sum_cases l). Qed.

(** ** Choosing an item from the open list *)

(** X18: an item chosen from the open list at rest is inserted into the
    text box and the list closes: once the slide-up has ended the list is
    hidden, the lock is free, and the mouse-down listener that [slideDown]
    had put on the text box is gone. *)
Theorem choosing_closes_the_list (s : Editor) (i : Input) :
  inProgress (transit s) = false ->
  visibility (options s) = "visible" ->
  setRangeText (d_value (dropdown s))
    (default 0 (selectionStart s)) (default 0 (selectionEnd s)) (input s) = Some i ->
  returns insertText s = true /\
  input (exec transitionEnd (exec insertText s)) = i /\
  visibility (options (exec transitionEnd (exec insertText s))) = "hidden" /\
  transit (exec transitionEnd (exec insertText s)) = mkTransit false None /\
  forall id, slideUpBound s = Some id ->
    mkListener InputN "mousedown" SlideUp id
      ∉ listeners (exec transitionEnd (exec insertText s)).
Proof.
  intros Hfree Hvis Hset.
  unfold insertText, toggleDropDown, stateToActionMap, slideUp, transitionEnd. run.
  rewrite Hset. simpl. rewrite Hfree. simpl. rewrite Hvis. simpl.
  unfold remove_listener.
  destruct (slideUpBound s) as [bound|]; simpl; do 4 (split; [reflexivity|]);
    intros id [= <-].
  rewrite list_elem_of_In, filter_In. intros [_ Hkeep]. simpl in Hkeep.
  by rewrite Nat.eqb_refl in Hkeep.
Qed.

Lemma choosing_closes_the_list_witness :
  returns insertText (choose "<>" opened) = true /\
  input (exec transitionEnd (exec insertText (choose "<>" opened))) = mkInput "h<>lo" 3 3 /\
  visibility (options (exec transitionEnd (exec insertText (choose "<>" opened)))) = "hidden" /\
  transit (exec transitionEnd (exec insertText (choose "<>" opened))) = mkTransit false None /\
  forall id, slideUpBound (choose "<>" opened) = Some id ->
    mkListener InputN "mousedown" SlideUp id
      ∉ listeners (exec transitionEnd (exec insertText (choose "<>" opened))).
Proof.
  apply (choosing_closes_the_list (choose "<>" opened) (mkInput "h<>lo" 3 3));
    vm_compute; reflexivity.
Defined.

(** ** The wire-ups of [initialize] *)

(** X19: on an editor that had no listener, [initialize] wires a mouse-down
    on the dropper to [toggleDropDown] and a change of the list to
    [insertText], and nothing else: a mouse wheel over the list, a click in
    the control area and a mouse-down in the text box change nothing. *)
Theorem initialize_wires (s : Editor) (t : Target) :
  listeners s = [] ->
  exec (dispatch DropperN "mousedown" t) (exec initialize s)
    = exec toggleDropDown (exec initialize s) /\
  exec (dispatch DropdownN "change" t) (exec initialize s)
    = exec insertText (exec initialize s) /\
  exec (dispatch DropdownN "mousewheel" t) (exec initialize s) = exec initialize s /\
  exec (dispatch ControlsN "click" t) (exec initialize s) = exec initialize s /\
  exec (dispatch InputN "mousedown" t) (exec initialize s) = exec initialize s.
Proof.
  intros Hl. unfold dispatch, initialize, listens, still_registered. run.
  rewrite Hl. simpl. rewrite !Nat.eqb_refl. simpl.
  rewrite Hl. simpl. rewrite !Nat.eqb_refl. simpl.
  repeat split; reflexivity.
Qed.

Lemma initialize_wires_witness :
  exec (dispatch DropperN "mousedown" TControls) (exec initialize (blank [] ∅))
    = exec toggleDropDown (exec initialize (blank [] ∅)) /\
  exec (dispatch DropdownN "change" TControls) (exec initialize (blank [] ∅))
    = exec insertText (exec initialize (blank [] ∅)) /\
  exec (dispatch DropdownN "mousewheel" TControls) (exec initialize (blank [] ∅))
    = exec initialize (blank [] ∅) /\
  exec (dispatch ControlsN "click" TControls) (exec initialize (blank [] ∅))
    = exec initialize (blank [] ∅) /\
  exec (dispatch InputN "mousedown" TControls) (exec initialize (blank [] ∅))
    = exec initialize (blank [] ∅).
Proof.
  apply (initialize_wires (blank [] ∅) TControls). vm_compute. reflexivity.
Defined.
